(** * Subnet ping scanner (pingtool.py): model and verified properties

    The development embeds [ping_host], [scan_subnet] and the reporting part
    of [main] from [python-ping-tool/pingtool.py].

    Conventions.
    - Python [int] is [Z]; counters that only count list elements are [nat].
    - Python [str] is [string]; the scanner only ever builds ASCII text.
    - An IPv4 address is the 32-bit integer [_ip] that [ipaddress] keeps,
      i.e. a [Z] in [0, 2^32).
    - A call either returns or raises: [outcome].  [exn] stands for the
      subclasses of [Exception], which is what the [except Exception]
      clauses of the source catch.
    - Effects (lines printed, [subprocess.run] calls) are threaded through
      a trace.  The probes run in worker threads; by convention, what a
      probe does is entered in the trace at the point where the main
      thread takes its result.  The order in which [as_completed] hands
      the futures out is an input of the model.  The trace therefore says
      which [ping] commands a scan runs, not in which order the worker
      threads start them; how many run at a time is a matter of the
      executor of [concurrent.futures] and is not modelled.
    - [get_subnet_input] reads the lines of standard input from a list.
      The two clock readings of [main] are left out. *)

From Stdlib Require Import ZArith List String Ascii Bool Lia.
From Stdlib Require Import Permutation Sorted DecimalString.
Import ListNotations.

Local Open Scope string_scope.
Local Open Scope Z_scope.
Local Open Scope list_scope.

(** ** Python values, exceptions and effects *)

Inductive exn : Type :=
| AddressValueError
| NetmaskValueError
| ValueError
| TimeoutExpired
| OtherError (name : string).

Inductive outcome (A : Type) : Type :=
| Return (a : A)
| Raise (e : exn).

Arguments Return {A} a.
Arguments Raise {A} e.

(** [isinstance(e, ValueError)]: the two [ipaddress] errors derive from
    [ValueError]. *)
Definition is_ValueError (e : exn) : bool :=
  match e with
  | AddressValueError | NetmaskValueError | ValueError => true
  | _ => false
  end.

(** [str(n)] for an [int]. *)
Definition str_of_int (n : Z) : string :=
  NilZero.string_of_int (Z.to_int n).

(** [s.split(sep)] for a one-character separator: never empty. *)
Fixpoint split (sep : ascii) (s : string) : list string :=
  match s with
  | EmptyString => [EmptyString]
  | String c r =>
      if Ascii.eqb c sep then EmptyString :: split sep r
      else match split sep r with
           | [] => [String c EmptyString]
           | w :: ws => String c w :: ws
           end
  end.

(** [range(a, b)] as a list. *)
Definition range (a b : Z) : list Z :=
  map (fun k => a + Z.of_nat k) (seq 0 (Z.to_nat (b - a))).

(** ** The part of the [ipaddress] module that the scanner calls

    After CPython's [Lib/ipaddress.py] (3.9.5 and later: octets with a
    leading zero are refused, and [hosts()] of a /32 is the address
    itself).  Names follow the library, without the leading underscore of
    its private helpers. *)

Module ipaddress.

Definition max_prefixlen : Z := 32.
Definition ALL_ONES : Z := 2 ^ 32 - 1.

Definition is_ascii_digit (c : ascii) : bool :=
  let n := nat_of_ascii c in (48 <=? n)%nat && (n <=? 57)%nat.

(** [s.isascii() and s.isdigit()]; [isdigit] is false on the empty
    string. *)
Definition isascii_isdigit (s : string) : bool :=
  match s with
  | EmptyString => false
  | _ => forallb is_ascii_digit (list_ascii_of_string s)
  end.

(** [int(s, 10)] on a string of ASCII digits. *)
Fixpoint int_of_digits (acc : Z) (s : string) : Z :=
  match s with
  | EmptyString => acc
  | String c r => int_of_digits (10 * acc + (Z.of_nat (nat_of_ascii c) - 48)) r
  end.

Definition parse_octet (octet_str : string) : outcome Z :=
  if (octet_str =? "")%string then Raise ValueError
  else if negb (isascii_isdigit octet_str) then Raise ValueError
  else if (3 <? String.length octet_str)%nat then Raise ValueError
  else if negb (octet_str =? "0")%string && prefix "0" octet_str
       then Raise ValueError
  else
    let octet_int := int_of_digits 0 octet_str in
    if 255 <? octet_int then Raise ValueError else Return octet_int.

(** [map(parse_octet, octets)], stopping at the first error. *)
Fixpoint parse_octets (octets : list string) : outcome (list Z) :=
  match octets with
  | [] => Return []
  | o :: os =>
      match parse_octet o with
      | Raise e => Raise e
      | Return b =>
          match parse_octets os with
          | Raise e => Raise e
          | Return bs => Return (b :: bs)
          end
      end
  end.

(** [int.from_bytes(bs, 'big')]. *)
Definition from_bytes_big (bs : list Z) : Z :=
  fold_left (fun acc b => Z.lor (Z.shiftl acc 8) b) bs 0.

(** [ip_int.to_bytes(4, 'big')]. *)
Definition to_bytes_big4 (ip_int : Z) : list Z :=
  map (fun k => Z.land (Z.shiftr ip_int k) 255) [24; 16; 8; 0].

Definition ip_int_from_string (ip_str : string) : outcome Z :=
  if (ip_str =? "")%string then Raise AddressValueError
  else
    let octets := split "." ip_str in
    if negb (List.length octets =? 4)%nat then Raise AddressValueError
    else match parse_octets octets with
         | Return bs => Return (from_bytes_big bs)
         | Raise e => if is_ValueError e then Raise AddressValueError
                      else Raise e
         end.

Definition contains (c : ascii) (s : string) : bool :=
  existsb (Ascii.eqb c) (list_ascii_of_string s).

(** [IPv4Address(address)] for a [str] argument; the value is [_ip]. *)
Definition IPv4Address (address : string) : outcome Z :=
  if contains "/" address then Raise AddressValueError
  else ip_int_from_string address.

(** [str(IPv4Address(ip_int))]. *)
Definition string_from_ip_int (ip_int : Z) : string :=
  String.concat "." (map str_of_int (to_bytes_big4 ip_int)).

Definition ip_int_from_prefix (prefixlen : Z) : Z :=
  Z.lxor ALL_ONES (Z.shiftr ALL_ONES prefixlen).

Definition prefix_from_prefix_string (prefixlen_str : string) : outcome Z :=
  if negb (isascii_isdigit prefixlen_str) then Raise NetmaskValueError
  else
    let prefixlen := int_of_digits 0 prefixlen_str in
    if negb ((0 <=? prefixlen) && (prefixlen <=? max_prefixlen))
    then Raise NetmaskValueError
    else Return prefixlen.

(** [_count_righthand_zero_bits(number, bits)]. *)
Fixpoint count_zero_bits_from (number : Z) (k : Z) (fuel : nat) : Z :=
  match fuel with
  | O => k
  | S fuel' =>
      if Z.testbit number k then k
      else count_zero_bits_from number (k + 1) fuel'
  end.

Definition count_righthand_zero_bits (number bits : Z) : Z :=
  if number =? 0 then bits
  else count_zero_bits_from number 0 (Z.to_nat bits).

Definition prefix_from_ip_int (ip_int : Z) : outcome Z :=
  let trailing_zeroes := count_righthand_zero_bits ip_int max_prefixlen in
  let prefixlen := max_prefixlen - trailing_zeroes in
  let leading_ones := Z.shiftr ip_int trailing_zeroes in
  let all_ones := Z.shiftl 1 prefixlen - 1 in
  if negb (leading_ones =? all_ones) then Raise ValueError
  else Return prefixlen.

Definition prefix_from_ip_string (ip_str : string) : outcome Z :=
  match ip_int_from_string ip_str with
  | Raise _ => Raise NetmaskValueError
  | Return ip_int =>
      match prefix_from_ip_int ip_int with
      | Return p => Return p
      | Raise _ =>
          match prefix_from_ip_int (Z.lxor ip_int ALL_ONES) with
          | Return p => Return p
          | Raise _ => Raise NetmaskValueError
          end
      end
  end.

(** [_make_netmask(arg)] for a [str] argument: the prefix length (the
    netmask itself is [ip_int_from_prefix] of it). *)
Definition make_netmask (arg : string) : outcome Z :=
  match prefix_from_prefix_string arg with
  | Return p => Return p
  | Raise _ => prefix_from_ip_string arg
  end.

Record network : Type := mkNetwork {
  network_address : Z;
  prefixlen : Z
}.

Definition netmask (n : network) : Z := ip_int_from_prefix (prefixlen n).
Definition hostmask (n : network) : Z := Z.lxor (netmask n) ALL_ONES.
Definition broadcast_address (n : network) : Z :=
  Z.lor (network_address n) (hostmask n).
Definition num_addresses (n : network) : Z :=
  broadcast_address n - network_address n + 1.

(** [IPv4Network(address, strict)] for a [str] argument. *)
Definition IPv4Network (address : string) (strict : bool) : outcome network :=
  match split "/" address with
  | [] => Raise AddressValueError
  | addr :: rest =>
      if (1 <? List.length rest)%nat then Raise AddressValueError
      else
        match IPv4Address addr with
        | Raise e => Raise e
        | Return packed =>
            let mask := match rest with
                        | m :: _ => make_netmask m
                        | [] => Return max_prefixlen
                        end in
            match mask with
            | Raise e => Raise e
            | Return p =>
                let nm := ip_int_from_prefix p in
                if negb (Z.land packed nm =? packed) && strict
                then Raise ValueError
                else Return (mkNetwork (Z.land packed nm) p)
            end
        end
  end.

(** [network.hosts()]: the constructor rebinds [hosts] to [__iter__] for a
    /31 and to the single address for a /32 (the address given, which a
    /32 mask leaves unchanged); otherwise the generator runs over
    [range(network + 1, broadcast)]. *)
Definition hosts (n : network) : list Z :=
  if prefixlen n =? max_prefixlen - 1
  then range (network_address n) (broadcast_address n + 1)
  else if prefixlen n =? max_prefixlen
  then [network_address n]
  else range (network_address n + 1) (broadcast_address n).

End ipaddress.

(** ** Effects: what a run prints and which processes it starts *)

(** One constructor per [print] call of the source; the text of a line is
    determined by the constructor and its arguments. *)
Inductive line : Type :=
| ErrorPinging (ip : string) (e : exn)
| ScanningSubnet (subnet : string)
| TotalHostsToScan (n : nat)
| UsingWorkers (max_workers : Z)
| PingTimeout (timeout : Z)
| Rule (width : nat)
| HostReachable (ip : string)
| HostNotReachable (ip : string)
| ScanCompleted
| PingableHosts (n : nat)
| NonPingableHosts (n : nat)
| ErrorScanning (e : exn)
| StartingScan (subnet : string)
| LookingForNonPingable
| ScanDuration
| ScanResultsTitle
| FoundNonPingable (n : nat)
| NonPingableItem (ip : string)
| SummaryTitle
| TotalScanned (n : nat)
| SummaryNonPingable (n : nat)
| SummaryPingable (n : Z)
| AllPingable.

Inductive event : Type :=
| Printed (l : line)
| SubprocessRun (argv : list string) (timeout : Z).

Definition trace : Type := list event.

(** A Python computation: from the trace so far to an outcome and the
    extended trace. *)
Definition Py (A : Type) : Type := trace -> outcome A * trace.

Definition ret {A : Type} (a : A) : Py A := fun tr => (Return a, tr).

Definition raise {A : Type} (e : exn) : Py A := fun tr => (Raise e, tr).

Definition lift {A : Type} (o : outcome A) : Py A := fun tr => (o, tr).

Definition bind {A B : Type} (m : Py A) (k : A -> Py B) : Py B :=
  fun tr =>
    match m tr with
    | (Return a, tr') => k a tr'
    | (Raise e, tr') => (Raise e, tr')
    end.

(** [try: body / except Exception as e: handler e]. *)
Definition try_except {A : Type} (body : Py A) (handler : exn -> Py A) : Py A :=
  fun tr =>
    match body tr with
    | (Return a, tr') => (Return a, tr')
    | (Raise e, tr') => handler e tr'
    end.

Definition print (l : line) : Py unit :=
  fun tr => (Return tt, tr ++ [Printed l]).

Notation "x <- m ;; k" := (bind m (fun x => k))
  (at level 61, m at next level, right associativity).
Notation "m ;;; k" := (bind m (fun _ => k))
  (at level 61, right associativity).

(** [for x in xs: body x]. *)
Fixpoint for_each {A : Type} (xs : list A) (body : A -> Py unit) : Py unit :=
  match xs with
  | [] => ret tt
  | x :: rest => body x ;;; for_each rest body
  end.

(** [sorted(xs, key=key)]: the keys are computed first, in order (the first
    error is raised); the elements are then sorted by [<] on the keys,
    stably. *)
Fixpoint keyed {A : Type} (key : A -> outcome Z) (xs : list A)
  : outcome (list (Z * A)) :=
  match xs with
  | [] => Return []
  | x :: rest =>
      match key x with
      | Raise e => Raise e
      | Return k =>
          match keyed key rest with
          | Raise e => Raise e
          | Return ks => Return ((k, x) :: ks)
          end
      end
  end.

Fixpoint insert_keyed {A : Type} (x : Z * A) (l : list (Z * A)) : list (Z * A) :=
  match l with
  | [] => [x]
  | y :: l' => if fst y <? fst x then y :: insert_keyed x l' else x :: l
  end.

Definition sort_keyed {A : Type} (l : list (Z * A)) : list (Z * A) :=
  fold_right insert_keyed [] l.

Definition sorted {A : Type} (xs : list A) (key : A -> outcome Z)
  : outcome (list A) :=
  match keyed key xs with
  | Raise e => Raise e
  | Return ks => Return (map snd (sort_keyed ks))
  end.

(** ** pingtool.py *)

Section PingTool.

(** What [subprocess.run(argv, capture_output=True, text=True,
    timeout=t)] does on the machine the scan runs on: the return code of
    the process, or the exception raised.  One answer per argument list:
    a scan probes every address once, and the same [process] in two scans
    is a prober that behaves the same both times. *)
Variable process : list string -> Z -> outcome Z.

Definition subprocess_run (argv : list string) (timeout : Z) : Py Z :=
  fun tr => (process argv timeout, tr ++ [SubprocessRun argv timeout]).

Definition ping_host (ip : string) (timeout : Z) : Py (string * bool) :=
  try_except
    (returncode <-
       subprocess_run ["ping"; "-c"; "1"; "-W"; str_of_int timeout; ip]
                      (timeout + 1) ;;
     ret (ip, returncode =? 0))
    (fun e =>
       match e with
       | TimeoutExpired => ret (ip, false)
       | _ => print (ErrorPinging ip e) ;;; ret (ip, false)
       end).

(** The two accumulators of [scan_subnet]. *)
Record scan_state : Type := mkScan {
  non_pingable : list string;
  pingable_count : nat
}.

(** The body of [for future in as_completed(future_to_ip)].  A future is
    named by its position in the order of submission and carries the
    arguments of its [ping_host] call; [order] is the order in which
    [as_completed] hands the futures out.  The effects of a future are
    entered in the trace where its result is taken. *)
Fixpoint as_completed_loop (futures : list (string * Z)) (order : list nat)
    (st : scan_state) : Py scan_state :=
  match order with
  | [] => ret st
  | future :: rest =>
      match nth_error futures future with
      | None => as_completed_loop futures rest st
      | Some (ip0, timeout) =>
          r <- ping_host ip0 timeout ;;
          let (ip, is_reachable) := r in
          if is_reachable then
            let st' := mkScan (non_pingable st) (S (pingable_count st)) in
            print (HostReachable ip) ;;;
            as_completed_loop futures rest st'
          else
            let st' := mkScan (non_pingable st ++ [ip]) (pingable_count st) in
            print (HostNotReachable ip) ;;;
            as_completed_loop futures rest st'
      end
  end.

(** [host_ips] of line 64. *)
Definition host_ips_of (network : ipaddress.network) : list string :=
  map ipaddress.string_from_ip_int (ipaddress.hosts network).

(** The [try] block of [scan_subnet].  [ThreadPoolExecutor] refuses
    [max_workers <= 0] with a [ValueError]. *)
Definition scan_body (subnet : string) (max_workers timeout : Z)
    (order : list nat) : Py (list string) :=
  network <- lift (ipaddress.IPv4Network subnet false) ;;
  let host_ips := host_ips_of network in
  print (ScanningSubnet subnet) ;;;
  print (TotalHostsToScan (List.length host_ips)) ;;;
  print (UsingWorkers max_workers) ;;;
  print (PingTimeout timeout) ;;;
  print (Rule 50) ;;;
  st <- (if max_workers <=? 0 then raise ValueError
         else
           let future_to_ip := map (fun ip => (ip, timeout)) host_ips in
           as_completed_loop future_to_ip order (mkScan [] 0)) ;;
  print (Rule 50) ;;;
  print ScanCompleted ;;;
  print (PingableHosts (pingable_count st)) ;;;
  print (NonPingableHosts (List.length (non_pingable st))) ;;;
  ret (non_pingable st).

Definition scan_subnet (subnet : string) (max_workers timeout : Z)
    (order : list nat) : Py (list string) :=
  try_except
    (scan_body subnet max_workers timeout order)
    (fun e => print (ErrorScanning e) ;;; ret []).

(** [len(list(ipaddress.IPv4Network(subnet).hosts()))]; the constructor is
    strict here. *)
Definition count_hosts (subnet : string) : Py nat :=
  network <- lift (ipaddress.IPv4Network subnet true) ;;
  ret (List.length (ipaddress.hosts network)).

(** Lines 165-184 of [main]: the report. *)
Definition main_report (subnet : string) (non_pingable_ips : list string)
  : Py unit :=
  print (Rule 60) ;;;
  print ScanResultsTitle ;;;
  print (Rule 60) ;;;
  (match non_pingable_ips with
   | _ :: _ =>
       print (FoundNonPingable (List.length non_pingable_ips)) ;;;
       print (Rule 40) ;;;
       ips <- lift (sorted non_pingable_ips ipaddress.IPv4Address) ;;
       for_each ips (fun ip => print (NonPingableItem ip)) ;;;
       print SummaryTitle ;;;
       total <- count_hosts subnet ;;
       print (TotalScanned total) ;;;
       print (SummaryNonPingable (List.length non_pingable_ips)) ;;;
       total' <- count_hosts subnet ;;
       print (SummaryPingable
                (Z.of_nat total' - Z.of_nat (List.length non_pingable_ips)))
   | [] =>
       print AllPingable ;;;
       total <- count_hosts subnet ;;
       print (TotalScanned total)
   end) ;;;
  print (Rule 60).

(** [main] from line 151 on, for the [subnet] that [get_subnet_input]
    returned; the two clock readings only feed the duration line. *)
Definition main_from (subnet : string) (order : list nat) : Py unit :=
  print (StartingScan subnet) ;;;
  print LookingForNonPingable ;;;
  print (Rule 60) ;;;
  non_pingable_ips <- scan_subnet subnet 50 1 order ;;
  print ScanDuration ;;;
  main_report subnet non_pingable_ips.

End PingTool.

(** ** Vocabulary of the statements *)

Definition ping_argv (ip : string) (timeout : Z) : list string :=
  ["ping"; "-c"; "1"; "-W"; str_of_int timeout; ip].

(** The host answers: the [ping] process for it exits with code 0. *)
Definition answers (process : list string -> Z -> outcome Z)
    (timeout : Z) (ip : string) : bool :=
  match process (ping_argv ip timeout) (timeout + 1) with
  | Return returncode => returncode =? 0
  | Raise _ => false
  end.

(** What one [ping_host] call adds to the trace. *)
Definition ping_events (process : list string -> Z -> outcome Z)
    (timeout : Z) (ip : string) : list event :=
  SubprocessRun (ping_argv ip timeout) (timeout + 1) ::
  match process (ping_argv ip timeout) (timeout + 1) with
  | Return _ | Raise TimeoutExpired => []
  | Raise e => [Printed (ErrorPinging ip e)]
  end.

(** The addresses in the order in which their futures are handed out. *)
Definition yielded (host_ips : list string) (order : list nat) : list string :=
  flat_map (fun future => match nth_error host_ips future with
                          | Some ip => [ip]
                          | None => []
                          end) order.

(** What the constructor establishes: a prefix length in [0, 32] and a
    network address whose host bits are zero. *)
Definition well_formed (n : ipaddress.network) : Prop :=
  0 <= ipaddress.prefixlen n <= 32 /\
  exists q,
    0 <= q < 2 ^ ipaddress.prefixlen n /\
    ipaddress.network_address n = q * 2 ^ (32 - ipaddress.prefixlen n).

(** What the [as_completed] loop adds to the trace for the addresses
    [ips], taken in this order. *)
Definition loop_events (process : list string -> Z -> outcome Z)
    (timeout : Z) (ips : list string) : list event :=
  flat_map (fun ip =>
              ping_events process timeout ip ++
              [Printed (if answers process timeout ip
                        then HostReachable ip else HostNotReachable ip)])
           ips.

(** The lines that open a scan. *)
Definition scan_header (subnet : string) (hosts : nat)
    (max_workers timeout : Z) : list event :=
  [Printed (ScanningSubnet subnet); Printed (TotalHostsToScan hosts);
   Printed (UsingWorkers max_workers); Printed (PingTimeout timeout);
   Printed (Rule 50)].

(** The addresses listed by the report, in the order printed. *)
Definition printed_items (tr : trace) : list string :=
  flat_map (fun ev => match ev with
                      | Printed (NonPingableItem ip) => [ip]
                      | _ => []
                      end) tr.

(** The [ping] invocations of a trace, in order. *)
Definition probes (tr : trace) : list (list string) :=
  flat_map (fun ev => match ev with
                      | SubprocessRun argv _ => [argv]
                      | Printed _ => []
                      end) tr.

(** The text shared by the hosts of a /24: the first three octets, each
    followed by a dot. *)
Definition first_three_octets (n : ipaddress.network) : string :=
  (String.concat "."
     (map str_of_int
          (firstn 3 (ipaddress.to_bytes_big4 (ipaddress.network_address n))))
   ++ ".")%string.

(** The lines that close a completed scan. *)
Definition scan_footer (pingable : nat) (unreachable : nat) : list event :=
  [Printed (Rule 50); Printed ScanCompleted;
   Printed (PingableHosts pingable); Printed (NonPingableHosts unreachable)].

(** Order of two keyed elements, as [sorted] compares them. *)
Definition key_le {A : Type} (a b : Z * A) : Prop := fst a <= fst b.

(** The numeric value of an address in text form. *)
Definition address_value (ip : string) : Z :=
  match ipaddress.IPv4Address ip with
  | Return v => v
  | Raise _ => 0
  end.

(** Ascending by numeric address value. *)
Definition ascending (ips : list string) : Prop :=
  exists values,
    Forall2 (fun ip v => ipaddress.IPv4Address ip = Return v) ips values /\
    StronglySorted Z.le values.

(** ** [get_subnet_input] and [main]

    The prompt reads lines from standard input.  [stdin] is the list of
    lines still to be read (without their line ends, code points below
    256); [input] on an empty list raises [EOFError].  Every line of
    the list is one that [input] could decode; what [input] does on
    bytes that do not decode is outside the model.  What the prompt
    writes is kept in a log of its own, apart from the trace of the
    scan. *)

Definition EOFError : exn := OtherError "EOFError".

(** [str(network)]: ['%s/%d' % (network_address, prefixlen)]. *)
Definition str_of_network (n : ipaddress.network) : string :=
  (ipaddress.string_from_ip_int (ipaddress.network_address n)
   ++ "/" ++ str_of_int (ipaddress.prefixlen n))%string.

(** [c.isspace()] for a code point below 256. *)
Definition is_space (c : ascii) : bool :=
  let n := nat_of_ascii c in
  ((9 <=? n) && (n <=? 13) || (28 <=? n) && (n <=? 32)
   || (n =? 133) || (n =? 160))%nat.

Fixpoint lstrip (s : string) : string :=
  match s with
  | EmptyString => EmptyString
  | String c r => if is_space c then lstrip r else s
  end.

Fixpoint rstrip (s : string) : string :=
  match s with
  | EmptyString => EmptyString
  | String c r =>
      match rstrip r with
      | EmptyString => if is_space c then EmptyString
                       else String c EmptyString
      | r' => String c r'
      end
  end.

(** [s.strip()]. *)
Definition strip (s : string) : string := rstrip (lstrip s).

(** [c.lower()] for a code point below 256. *)
Definition lower_char (c : ascii) : ascii :=
  let n := nat_of_ascii c in
  if ((65 <=? n) && (n <=? 90) || (192 <=? n) && (n <=? 214)
      || (216 <=? n) && (n <=? 222))%nat
  then ascii_of_nat (n + 32)
  else c.

(** [s.lower()]. *)
Fixpoint lower (s : string) : string :=
  match s with
  | EmptyString => EmptyString
  | String c r => String (lower_char c) (lower r)
  end.

Inductive prompt_line : Type :=
| Text (s : string)
| PleaseEnterSubnet
| InvalidSubnetFormat
| InputError (e : exn).

Inductive question : Type :=
| EnterSubnet
| ConfirmLarge (num_addresses : Z).

Inductive console : Type :=
| Said (l : prompt_line)
| Asked (q : question).

(** Lines 113-121, and the prompt of line 123. *)
Definition banner : list console :=
  [Said (Text (String (ascii_of_nat 10) "Subnet Ping Scanner"));
   Said (Text (string_of_list_ascii (repeat "="%char 50)));
   Said (Text "Enter the subnet you want to scan for non-pingable IPs");
   Said (Text "Examples:");
   Said (Text "  192.168.1.0/24");
   Said (Text "  172.16.0.0/16");
   Said (Text "  10.0.0.0/8");
   Said (Text "  192.168.1.0/28");
   Said (Text (string_of_list_ascii (repeat "-"%char 50)));
   Asked EnterSubnet].

(** [response in ['y', 'yes']] for [response = r.strip().lower()]. *)
Definition says_yes (r : string) : bool :=
  let response := lower (strip r) in
  existsb (String.eqb response) ["y"; "yes"].

(** The [while True] loop of [get_subnet_input]: every turn reads a line,
    so the loop is a recursion on the lines left.  The first [input] is
    outside the [try], the second one inside it: an [EOFError] there is
    printed, and the next turn raises it again. *)
Fixpoint get_subnet_input (stdin : list string) (out : list console)
  : outcome string * (list string * list console) :=
  let out1 := out ++ banner in
  match stdin with
  | [] => (Raise EOFError, ([], out1))
  | l :: rest =>
      let subnet_input := strip l in
      if (subnet_input =? "")%string
      then get_subnet_input rest (out1 ++ [Said PleaseEnterSubnet])
      else
        match ipaddress.IPv4Network subnet_input false with
        | Return network =>
            if 1024 <? ipaddress.num_addresses network then
              let out2 :=
                out1 ++ [Asked (ConfirmLarge
                                  (ipaddress.num_addresses network))] in
              match rest with
              | [] =>
                  get_subnet_input rest (out2 ++ [Said (InputError EOFError)])
              | r :: rest' =>
                  if negb (says_yes r)
                  then get_subnet_input rest' out2
                  else (Return (str_of_network network), (rest', out2))
              end
            else (Return (str_of_network network), (rest, out1))
        | Raise AddressValueError =>
            get_subnet_input rest (out1 ++ [Said InvalidSubnetFormat])
        | Raise e =>
            get_subnet_input rest (out1 ++ [Said (InputError e)])
        end
  end.

(** [main]: the prompt, then the scan and the report.  The result holds
    the lines of standard input left unread, what the prompt wrote, and
    the trace of the scan and the report. *)
Definition main (process : list string -> Z -> outcome Z)
    (stdin : list string) (order : list nat)
  : outcome unit * (list string * list console * trace) :=
  match get_subnet_input stdin [] with
  | (Raise e, (rest, out)) => (Raise e, (rest, out, []))
  | (Return subnet, (rest, out)) =>
      let (o, tr) := main_from process subnet order [] in
      (o, (rest, out, tr))
  end.

(** ** Vocabulary of the further statements *)

(** A line that [get_subnet_input] passes over by itself: empty after
    stripping, or not a network. *)
Definition rejected (l : string) : Prop :=
  exists e, ipaddress.IPv4Network (strip l) false = Raise e.

(** What [get_subnet_input] hands back: its outcome and the lines left
    unread. *)
Definition input_result (r : outcome string * (list string * list console))
  : outcome string * list string :=
  (fst r, fst (snd r)).

(** What the report of [main] prints for a range of [total] hosts, the
    list [unreachable] that [scan_subnet] returned and its sorted form
    [listed]. *)
Definition report_events (total : nat) (unreachable listed : list string)
  : list event :=
  [Printed (Rule 60); Printed ScanResultsTitle; Printed (Rule 60)] ++
  match unreachable with
  | [] => [Printed AllPingable; Printed (TotalScanned total)]
  | _ :: _ =>
      [Printed (FoundNonPingable (List.length unreachable));
       Printed (Rule 40)] ++
      map (fun ip => Printed (NonPingableItem ip)) listed ++
      [Printed SummaryTitle; Printed (TotalScanned total);
       Printed (SummaryNonPingable (List.length unreachable));
       Printed (SummaryPingable
                  (Z.of_nat total - Z.of_nat (List.length unreachable)))]
  end ++
  [Printed (Rule 60)].

Example parse_24 :
  ipaddress.IPv4Network "192.168.1.77/24" false
  = Return (ipaddress.mkNetwork 3232235776 24).
Proof. vm_compute. reflexivity. Qed.

(** ** Facts about the [ipaddress] model *)

Module ipaddress_facts.

Import ipaddress.

Lemma testbit_ALL_ONES (n : Z) :
  0 <= n -> Z.testbit ALL_ONES n = (n <? 32).
Proof.
  intros Hn. change ALL_ONES with (Z.ones 32).
  apply Z.testbit_ones_nonneg; lia.
Qed.

Lemma testbit_netmask (p n : Z) :
  0 <= p <= 32 -> 0 <= n ->
  Z.testbit (ip_int_from_prefix p) n = (32 - p <=? n) && (n <? 32).
Proof.
  intros Hp Hn. unfold ip_int_from_prefix.
  rewrite Z.lxor_spec, Z.shiftr_spec, !testbit_ALL_ONES by lia.
  destruct (Z.ltb_spec n 32), (Z.ltb_spec (n + p) 32), (Z.leb_spec (32 - p) n);
    cbn; try reflexivity; lia.
Qed.

Lemma testbit_above (x n : Z) :
  0 <= x < 2 ^ 32 -> 32 <= n -> Z.testbit x n = false.
Proof.
  intros Hx Hn.
  destruct (Z.eq_dec x 0) as [-> | Hne]; [apply Z.testbit_0_l |].
  apply Z.bits_above_log2; [lia |].
  apply Z.log2_lt_pow2; [lia |].
  apply Z.lt_le_trans with (2 ^ 32); [lia |].
  apply Z.pow_le_mono_r; lia.
Qed.

(** Masking with the netmask clears the host bits. *)
Lemma land_netmask (x p : Z) :
  0 <= x < 2 ^ 32 -> 0 <= p <= 32 ->
  Z.land x (ip_int_from_prefix p) = x / 2 ^ (32 - p) * 2 ^ (32 - p).
Proof.
  intros Hx Hp.
  rewrite <- Z.shiftr_div_pow2, <- Z.shiftl_mul_pow2 by lia.
  apply Z.bits_inj'. intros n Hn.
  rewrite Z.land_spec, testbit_netmask by lia.
  destruct (Z.leb_spec (32 - p) n).
  - rewrite Z.shiftl_spec, Z.shiftr_spec by lia.
    replace (n - (32 - p) + (32 - p)) with n by lia.
    destruct (Z.ltb_spec n 32); cbn.
    + apply andb_true_r.
    + rewrite testbit_above by lia. reflexivity.
  - rewrite Z.shiftl_spec_low by lia. cbn. apply andb_false_r.
Qed.

Lemma hostmask_ones (p : Z) :
  0 <= p <= 32 ->
  Z.lxor (ip_int_from_prefix p) ALL_ONES = Z.ones (32 - p).
Proof.
  intros Hp. apply Z.bits_inj'. intros n Hn.
  rewrite Z.lxor_spec, testbit_netmask, testbit_ALL_ONES by lia.
  rewrite Z.testbit_ones_nonneg by lia.
  destruct (Z.ltb_spec n 32), (Z.ltb_spec n (32 - p)), (Z.leb_spec (32 - p) n);
    cbn; try reflexivity; lia.
Qed.

Lemma lor_disjoint_low (a b h : Z) :
  0 <= h -> 0 <= b < 2 ^ h ->
  Z.lor (a * 2 ^ h) b = a * 2 ^ h + b.
Proof.
  intros Hh Hb.
  rewrite <- (Z.add_lor_land (a * 2 ^ h) b).
  assert (Hland : Z.land (a * 2 ^ h) b = 0).
  { apply Z.bits_inj'. intros n Hn.
    rewrite Z.land_spec, Z.testbit_0_l.
    rewrite <- (Z.mod_small b (2 ^ h)) by lia.
    rewrite Z.testbit_mod_pow2 by lia.
    destruct (Z.ltb_spec n h).
    - rewrite Z.mul_pow2_bits_low by lia. reflexivity.
    - cbn. apply andb_false_r. }
  rewrite Hland. lia.
Qed.

Lemma pow2_split (p : Z) :
  0 <= p <= 32 -> 2 ^ p * 2 ^ (32 - p) = 2 ^ 32.
Proof.
  intros Hp. rewrite <- Z.pow_add_r by lia. f_equal. lia.
Qed.

Lemma broadcast_eq (n : network) :
  well_formed n ->
  broadcast_address n = network_address n + 2 ^ (32 - prefixlen n) - 1.
Proof.
  intros [Hp [q [Hq Hnet]]].
  unfold broadcast_address, hostmask, netmask.
  rewrite hostmask_ones, Hnet by exact Hp.
  assert (0 < 2 ^ (32 - prefixlen n)) by (apply Z.pow_pos_nonneg; lia).
  rewrite lor_disjoint_low; rewrite ?Z.ones_equiv; lia.
Qed.

Lemma network_address_range (n : network) :
  well_formed n ->
  0 <= network_address n /\
  network_address n + 2 ^ (32 - prefixlen n) <= 2 ^ 32.
Proof.
  intros [Hp [q [Hq Hnet]]].
  pose proof (pow2_split (prefixlen n) Hp) as Hsplit.
  assert (0 < 2 ^ (32 - prefixlen n)) by (apply Z.pow_pos_nonneg; lia).
  rewrite Hnet. split; nia.
Qed.

(** *** What a successful parse guarantees *)

Lemma int_of_digits_nonneg (s : string) :
  forall acc,
    forallb is_ascii_digit (list_ascii_of_string s) = true ->
    0 <= acc -> 0 <= int_of_digits acc s.
Proof.
  induction s as [| c r IH]; intros acc Hdig Hacc;
    cbn [int_of_digits list_ascii_of_string forallb] in *.
  - exact Hacc.
  - apply andb_true_iff in Hdig. destruct Hdig as [Hc Hr].
    apply IH; [exact Hr |].
    unfold is_ascii_digit in Hc. cbv zeta in Hc.
    apply andb_true_iff in Hc.
    destruct Hc as [Hlo _]. apply Nat.leb_le in Hlo. lia.
Qed.

Lemma parse_octet_range (o : string) (v : Z) :
  parse_octet o = Return v -> 0 <= v <= 255.
Proof.
  unfold parse_octet.
  destruct (o =? "")%string; [discriminate |].
  destruct (isascii_isdigit o) eqn:Hdig; cbn [negb]; [| discriminate].
  destruct (3 <? String.length o)%nat; [discriminate |].
  destruct (negb (o =? "0")%string && prefix "0" o); [discriminate |].
  destruct (Z.ltb_spec 255 (int_of_digits 0 o)); [discriminate |].
  intros Hv. injection Hv as <-. split; [| assumption].
  apply int_of_digits_nonneg; [| lia].
  destruct o; [discriminate | exact Hdig].
Qed.

Lemma parse_octets_range (os : list string) :
  forall bs,
    parse_octets os = Return bs ->
    List.length bs = List.length os /\ Forall (fun b => 0 <= b <= 255) bs.
Proof.
  induction os as [| o os IH]; intros bs Hbs; cbn in Hbs.
  - injection Hbs as <-. split; [reflexivity | constructor].
  - destruct (parse_octet o) as [b |] eqn:Ho; [| discriminate].
    destruct (parse_octets os) as [bs' |]; [| discriminate].
    injection Hbs as <-. destruct (IH bs' eq_refl) as [Hlen Hall].
    split; [cbn; lia |].
    constructor; [eapply parse_octet_range; eassumption | exact Hall].
Qed.

Lemma lor_shiftl_8 (acc b : Z) :
  0 <= b <= 255 -> Z.lor (Z.shiftl acc 8) b = acc * 256 + b.
Proof.
  intros Hb. rewrite Z.shiftl_mul_pow2 by lia.
  change 256 with (2 ^ 8). apply lor_disjoint_low; [lia |].
  change (2 ^ 8) with 256. lia.
Qed.

Lemma from_bytes_big_4 (a b c d : Z) :
  0 <= a <= 255 -> 0 <= b <= 255 -> 0 <= c <= 255 -> 0 <= d <= 255 ->
  from_bytes_big [a; b; c; d] = ((a * 256 + b) * 256 + c) * 256 + d.
Proof.
  intros Ha Hb Hc Hd. unfold from_bytes_big. cbn [fold_left].
  rewrite !lor_shiftl_8 by assumption. lia.
Qed.

Lemma ip_int_from_string_range (s : string) (v : Z) :
  ip_int_from_string s = Return v -> 0 <= v < 2 ^ 32.
Proof.
  unfold ip_int_from_string.
  destruct (s =? "")%string; [discriminate |].
  destruct (Nat.eqb_spec (List.length (split "." s)) 4) as [Hlen |];
    cbn [negb]; [| discriminate].
  destruct (parse_octets (split "." s)) as [bs | e] eqn:Hbs;
    [| destruct (is_ValueError e); discriminate].
  intros Hv. injection Hv as <-.
  destruct (parse_octets_range _ _ Hbs) as [Hl Hall].
  rewrite Hlen in Hl.
  destruct bs as [| a [| b [| c [| d [| ? ?]]]]]; try discriminate.
  inversion_clear Hall as [| ? ? Ha Hall1].
  inversion_clear Hall1 as [| ? ? Hb Hall2].
  inversion_clear Hall2 as [| ? ? Hc Hall3].
  inversion_clear Hall3 as [| ? ? Hd _].
  rewrite from_bytes_big_4 by assumption.
  change (2 ^ 32) with 4294967296. lia.
Qed.

Lemma IPv4Address_range (s : string) (v : Z) :
  IPv4Address s = Return v -> 0 <= v < 2 ^ 32.
Proof.
  unfold IPv4Address. destruct (contains "/" s); [discriminate |].
  apply ip_int_from_string_range.
Qed.

Lemma count_zero_bits_from_range (number : Z) (fuel : nat) :
  forall k, k <= count_zero_bits_from number k fuel <= k + Z.of_nat fuel.
Proof.
  induction fuel as [| fuel IH]; intros k; cbn [count_zero_bits_from].
  - lia.
  - destruct (Z.testbit number k); [lia |].
    specialize (IH (k + 1)). lia.
Qed.

Lemma count_righthand_zero_bits_range (number : Z) :
  0 <= count_righthand_zero_bits number 32 <= 32.
Proof.
  unfold count_righthand_zero_bits.
  destruct (number =? 0); [lia |].
  pose proof (count_zero_bits_from_range number (Z.to_nat 32) 0). lia.
Qed.

Lemma prefix_from_ip_int_range (x p : Z) :
  prefix_from_ip_int x = Return p -> 0 <= p <= 32.
Proof.
  unfold prefix_from_ip_int. cbv zeta.
  pose proof (count_righthand_zero_bits_range x) as Hr.
  change (count_righthand_zero_bits x 32)
    with (count_righthand_zero_bits x max_prefixlen) in Hr.
  set (tz := count_righthand_zero_bits x max_prefixlen) in *.
  destruct (negb _); [discriminate |].
  intros Hp. assert (Heq : p = max_prefixlen - tz) by congruence.
  rewrite Heq. change max_prefixlen with 32. lia.
Qed.

Lemma make_netmask_range (arg : string) (p : Z) :
  make_netmask arg = Return p -> 0 <= p <= 32.
Proof.
  unfold make_netmask, prefix_from_prefix_string, max_prefixlen.
  destruct (negb (isascii_isdigit arg)).
  - unfold prefix_from_ip_string.
    destruct (ip_int_from_string arg) as [x |]; [| discriminate].
    destruct (prefix_from_ip_int x) as [p1 |] eqn:H1.
    + intros Hp. injection Hp as <-. eapply prefix_from_ip_int_range; eauto.
    + destruct (prefix_from_ip_int (Z.lxor x ALL_ONES)) as [p2 |] eqn:H2;
        [| discriminate].
      intros Hp. injection Hp as <-. eapply prefix_from_ip_int_range; eauto.
  - destruct (Z.leb_spec 0 (int_of_digits 0 arg)),
             (Z.leb_spec (int_of_digits 0 arg) 32); cbn [andb negb].
    + intros Hp. injection Hp as <-. lia.
    + unfold prefix_from_ip_string.
      destruct (ip_int_from_string arg) as [x |]; [| discriminate].
      destruct (prefix_from_ip_int x) as [p1 |] eqn:H1.
      * intros Hp. injection Hp as <-. eapply prefix_from_ip_int_range; eauto.
      * destruct (prefix_from_ip_int (Z.lxor x ALL_ONES)) as [p2 |] eqn:H2;
          [| discriminate].
        intros Hp. injection Hp as <-.
        eapply prefix_from_ip_int_range; eauto.
    + unfold prefix_from_ip_string.
      destruct (ip_int_from_string arg) as [x |]; [| discriminate].
      destruct (prefix_from_ip_int x) as [p1 |] eqn:H1.
      * intros Hp. injection Hp as <-. eapply prefix_from_ip_int_range; eauto.
      * destruct (prefix_from_ip_int (Z.lxor x ALL_ONES)) as [p2 |] eqn:H2;
          [| discriminate].
        intros Hp. injection Hp as <-.
        eapply prefix_from_ip_int_range; eauto.
    + lia.
Qed.

Lemma masked_well_formed (packed p : Z) :
  0 <= packed < 2 ^ 32 -> 0 <= p <= 32 ->
  well_formed (mkNetwork (Z.land packed (ip_int_from_prefix p)) p).
Proof.
  intros Hx Hp. split; [exact Hp |]. cbn [prefixlen network_address].
  exists (packed / 2 ^ (32 - p)).
  split; [| apply land_netmask; assumption].
  assert (0 < 2 ^ (32 - p)) by (apply Z.pow_pos_nonneg; lia).
  split; [apply Z.div_pos; lia |].
  apply Z.div_lt_upper_bound; [lia |].
  rewrite Z.mul_comm, pow2_split by exact Hp. lia.
Qed.

Theorem IPv4Network_well_formed (address : string) (strict : bool)
    (n : network) :
  IPv4Network address strict = Return n -> well_formed n.
Proof.
  unfold IPv4Network.
  destruct (split "/" address) as [| addr rest]; [discriminate |].
  destruct (1 <? List.length rest)%nat; [discriminate |].
  destruct (IPv4Address addr) as [packed |] eqn:Haddr; [| discriminate].
  apply IPv4Address_range in Haddr.
  assert (Hmask : forall m p, m = Return p -> 0 <= p <= 32 ->
            (if negb (Z.land packed (ip_int_from_prefix p) =? packed) && strict
             then Raise ValueError
             else Return (mkNetwork (Z.land packed (ip_int_from_prefix p)) p))
            = Return n -> well_formed n).
  { intros m p _ Hp.
    destruct (negb _ && strict); [discriminate |].
    intros Hn. injection Hn as <-. apply masked_well_formed; assumption. }
  destruct rest as [| m rest'].
  - apply (Hmask (Return max_prefixlen) 32 eq_refl). lia.
  - destruct (make_netmask m) as [p |] eqn:Hm; [| discriminate].
    apply (Hmask (Return p) p eq_refl).
    eapply make_netmask_range; eassumption.
Qed.

(** *** [range] and [hosts] *)

Lemma length_range (a b : Z) : List.length (range a b) = Z.to_nat (b - a).
Proof. unfold range. rewrite length_map, length_seq. reflexivity. Qed.

Lemma in_range (a b x : Z) : In x (range a b) <-> a <= x < b.
Proof.
  unfold range. rewrite in_map_iff. split.
  - intros [k [<- Hk]]. apply in_seq in Hk. lia.
  - intros Hx. exists (Z.to_nat (x - a)). split; [lia |].
    apply in_seq. lia.
Qed.

Lemma range_sorted (a b : Z) : StronglySorted Z.lt (range a b).
Proof.
  unfold range. generalize (Z.to_nat (b - a)) as len. intros len.
  generalize 0%nat as start.
  induction len as [| len IH]; intros start; cbn [seq map].
  - constructor.
  - constructor; [apply IH |].
    apply Forall_forall. intros x Hx.
    apply in_map_iff in Hx. destruct Hx as [k [<- Hk]].
    apply in_seq in Hk. lia.
Qed.

Lemma range_cons (a b : Z) : a < b -> range a b = a :: range (a + 1) b.
Proof.
  intros Hab. unfold range.
  replace (Z.to_nat (b - a)) with (S (Z.to_nat (b - (a + 1)))) by lia.
  cbn [seq map]. f_equal; [lia |].
  rewrite <- seq_shift, map_map. apply map_ext. intros k. lia.
Qed.

Lemma range_nil (a b : Z) : b <= a -> range a b = [].
Proof.
  intros Hab. unfold range.
  replace (Z.to_nat (b - a)) with 0%nat by lia. reflexivity.
Qed.

Lemma hosts_wide (n : network) :
  well_formed n -> prefixlen n <= 30 ->
  hosts n = range (network_address n + 1)
                  (network_address n + 2 ^ (32 - prefixlen n) - 1).
Proof.
  intros Hwf Hp. unfold hosts, max_prefixlen.
  destruct (Z.eqb_spec (prefixlen n) (32 - 1)) as [H31 |]; [lia |].
  destruct (Z.eqb_spec (prefixlen n) 32) as [H32 |]; [lia |].
  rewrite broadcast_eq by exact Hwf. reflexivity.
Qed.

Lemma hosts_31 (n : network) :
  well_formed n -> prefixlen n = 31 ->
  hosts n = [network_address n; network_address n + 1].
Proof.
  intros Hwf Hp. unfold hosts, max_prefixlen.
  rewrite broadcast_eq, Hp by exact Hwf. cbn [Z.eqb Z.sub Z.opp Z.pos_sub].
  change (Z.pos_sub 32 1 =? 31) with true. cbv iota.
  change (2 ^ Z.pos_sub 32 31) with 2.
  rewrite range_cons by lia. rewrite range_cons by lia.
  rewrite range_nil by lia. reflexivity.
Qed.

Lemma hosts_32 (n : network) :
  prefixlen n = 32 -> hosts n = [network_address n].
Proof.
  intros Hp. unfold hosts, max_prefixlen. rewrite Hp. reflexivity.
Qed.

(** Every usable host is an address of the block, hence a 32-bit value. *)
Lemma hosts_in_block (n : network) (x : Z) :
  well_formed n -> In x (hosts n) ->
  network_address n <= x <= broadcast_address n /\ 0 <= x < 2 ^ 32.
Proof.
  intros Hwf Hin.
  pose proof (network_address_range n Hwf) as [Hlo Hhi].
  pose proof (broadcast_eq n Hwf) as Hb.
  destruct Hwf as [Hp Hq].
  assert (Hwf : well_formed n) by (split; assumption).
  assert (Hpow : 0 < 2 ^ (32 - prefixlen n)) by (apply Z.pow_pos_nonneg; lia).
  destruct (Z.le_gt_cases (prefixlen n) 30) as [Hle | Hgt].
  - rewrite hosts_wide in Hin by assumption. apply in_range in Hin. lia.
  - assert (Hcase : prefixlen n = 31 \/ prefixlen n = 32) by lia.
    destruct Hcase as [H31 | H32].
    + rewrite hosts_31 in Hin by assumption.
      rewrite H31 in *. change (2 ^ (32 - 31)) with 2 in *.
      cbn [In] in Hin. lia.
    + rewrite hosts_32 in Hin by assumption.
      rewrite H32 in *. change (2 ^ (32 - 32)) with 1 in *.
      cbn [In] in Hin. lia.
Qed.

Lemma hosts_sorted (n : network) :
  well_formed n -> StronglySorted Z.lt (hosts n).
Proof.
  intros Hwf.
  destruct (Z.le_gt_cases (prefixlen n) 30) as [Hle | Hgt].
  - rewrite hosts_wide by assumption. apply range_sorted.
  - destruct Hwf as [Hp Hq].
    assert (Hwf : well_formed n) by (split; assumption).
    assert (Hcase : prefixlen n = 31 \/ prefixlen n = 32) by lia.
    destruct Hcase as [H31 | H32].
    + rewrite hosts_31 by assumption.
      repeat constructor. lia.
    + rewrite hosts_32 by assumption. repeat constructor.
Qed.

(** *** Printing an address and reading it back *)

Lemma octet_table :
  forallb (fun b =>
             match parse_octet (str_of_int b) with
             | Return v => v =? b
             | Raise _ => false
             end
             && negb (contains "." (str_of_int b))
             && negb (contains "/" (str_of_int b)))
          (range 0 256) = true.
Proof. vm_compute. reflexivity. Qed.

Lemma octet_string (b : Z) :
  0 <= b <= 255 ->
  parse_octet (str_of_int b) = Return b /\
  contains "." (str_of_int b) = false /\
  contains "/" (str_of_int b) = false.
Proof.
  intros Hb.
  pose proof octet_table as Htab.
  rewrite forallb_forall in Htab.
  specialize (Htab b). 
  assert (Hin : In b (range 0 256)) by (apply in_range; lia).
  specialize (Htab Hin).
  apply andb_true_iff in Htab. destruct Htab as [Htab Hslash].
  apply andb_true_iff in Htab. destruct Htab as [Hparse Hdot].
  apply negb_true_iff in Hslash, Hdot.
  repeat split; try assumption.
  destruct (parse_octet (str_of_int b)) as [v |]; [| discriminate].
  apply Z.eqb_eq in Hparse. congruence.
Qed.

Lemma to_bytes_big4_from (x : Z) :
  0 <= x < 2 ^ 32 ->
  Forall (fun b => 0 <= b <= 255) (to_bytes_big4 x) /\
  from_bytes_big (to_bytes_big4 x) = x.
Proof.
  intros Hx. unfold to_bytes_big4. cbn [map].
  change 255 with (Z.ones 8).
  rewrite !Z.land_ones, !Z.shiftr_div_pow2 by lia.
  change (Z.ones 8) with 255.
  change (2 ^ 32) with 4294967296 in Hx.
  change (2 ^ 24) with 16777216. change (2 ^ 16) with 65536.
  change (2 ^ 8) with 256. change (2 ^ 0) with 1.
  split.
  - repeat constructor; Z.div_mod_to_equations; lia.
  - rewrite from_bytes_big_4 by (Z.div_mod_to_equations; lia).
    Z.div_mod_to_equations; lia.
Qed.

Lemma split_not_nil (sep : ascii) (s : string) : split sep s <> [].
Proof.
  destruct s as [| c r]; cbn [split]; [discriminate |].
  destruct (Ascii.eqb c sep); [discriminate |].
  destruct (split sep r); discriminate.
Qed.

Lemma split_no_sep (sep : ascii) (a : string) :
  contains sep a = false -> split sep a = [a].
Proof.
  unfold contains. induction a as [| c a IH]; cbn [split list_ascii_of_string existsb].
  - reflexivity.
  - intros H. apply orb_false_iff in H. destruct H as [Hc Ha].
    rewrite Ascii.eqb_sym, Hc, (IH Ha). reflexivity.
Qed.

Lemma split_append (sep : ascii) (a r : string) :
  contains sep a = false ->
  split sep (a ++ String sep r)%string = a :: split sep r.
Proof.
  unfold contains. induction a as [| c a IH];
    cbn [split list_ascii_of_string existsb String.append].
  - intros _. rewrite Ascii.eqb_refl. reflexivity.
  - intros H. apply orb_false_iff in H. destruct H as [Hc Ha].
    rewrite Ascii.eqb_sym, Hc, (IH Ha). reflexivity.
Qed.

Lemma contains_append (c : ascii) (a b : string) :
  contains c (a ++ b)%string = contains c a || contains c b.
Proof.
  unfold contains. induction a as [| x a IH];
    cbn [list_ascii_of_string existsb String.append].
  - reflexivity.
  - rewrite IH. apply orb_assoc.
Qed.

Lemma contains_String (c x : ascii) (s : string) :
  contains c (String x s) = Ascii.eqb c x || contains c s.
Proof. reflexivity. Qed.

Lemma concat_octets (sa sb sc sd : string) :
  String.concat "." [sa; sb; sc; sd]
  = (sa ++ String "." (sb ++ String "." (sc ++ String "." sd)))%string.
Proof. reflexivity. Qed.

Lemma string_from_ip_int_round_trip (x : Z) :
  0 <= x < 2 ^ 32 -> IPv4Address (string_from_ip_int x) = Return x.
Proof.
  intros Hx.
  destruct (to_bytes_big4_from x Hx) as [Hall Hfrom].
  unfold string_from_ip_int.
  remember (to_bytes_big4 x) as bs eqn:Hbs.
  assert (Hlen : List.length bs = 4%nat) by (subst bs; reflexivity).
  destruct bs as [| a [| b [| c [| d [| ? ?]]]]]; try discriminate.
  inversion_clear Hall as [| ? ? Ha Hall1].
  inversion_clear Hall1 as [| ? ? Hb Hall2].
  inversion_clear Hall2 as [| ? ? Hc Hall3].
  inversion_clear Hall3 as [| ? ? Hd _].
  destruct (octet_string a Ha) as [Pa [Da Sa]].
  destruct (octet_string b Hb) as [Pb [Db Sb]].
  destruct (octet_string c Hc) as [Pc [Dc Sc]].
  destruct (octet_string d Hd) as [Pd [Dd Sd]].
  cbn [map]. rewrite concat_octets.
  generalize dependent (str_of_int a). intros sa Pa Da Sa.
  generalize dependent (str_of_int b). intros sb Pb Db Sb.
  generalize dependent (str_of_int c). intros sc Pc Dc Sc.
  generalize dependent (str_of_int d). intros sd Pd Dd Sd.
  unfold IPv4Address.
  repeat (rewrite contains_append || rewrite contains_String).
  rewrite Sa, Sb, Sc, Sd.
  change (Ascii.eqb "/" ".") with false. cbn [orb].
  unfold ip_int_from_string.
  assert (Hne : ((sa ++ String "." (sb ++ String "." (sc ++ String "." sd)))
                 =? "")%string = false).
  { destruct sa; [discriminate Pa | reflexivity]. }
  rewrite Hne.
  rewrite !split_append, split_no_sep by assumption.
  cbn [List.length Nat.eqb negb parse_octets].
  rewrite Pa, Pb, Pc, Pd. rewrite Hfrom. reflexivity.
Qed.

Lemma string_from_ip_int_injective (x y : Z) :
  0 <= x < 2 ^ 32 -> 0 <= y < 2 ^ 32 ->
  string_from_ip_int x = string_from_ip_int y -> x = y.
Proof.
  intros Hx Hy Heq.
  pose proof (string_from_ip_int_round_trip x Hx) as Rx.
  pose proof (string_from_ip_int_round_trip y Hy) as Ry.
  rewrite Heq in Rx. congruence.
Qed.

(** *** The hosts of a /24 in text form *)

Lemma to_bytes_low_octet (q k : Z) :
  0 <= k < 256 ->
  to_bytes_big4 (q * 256 + k) = firstn 3 (to_bytes_big4 (q * 256)) ++ [k].
Proof.
  intros Hk. unfold to_bytes_big4. cbn [map firstn app].
  change 255 with (Z.ones 8).
  rewrite !Z.land_ones, !Z.shiftr_div_pow2 by lia.
  change (2 ^ 24) with 16777216. change (2 ^ 16) with 65536.
  change (2 ^ 8) with 256. change (2 ^ 0) with 1.
  assert (H3 : ((q * 256 + k) / 16777216) mod 256
                = (q * 256 / 16777216) mod 256)
    by (Z.div_mod_to_equations; lia).
  assert (H2 : ((q * 256 + k) / 65536) mod 256 = (q * 256 / 65536) mod 256)
    by (Z.div_mod_to_equations; lia).
  assert (H1 : ((q * 256 + k) / 256) mod 256 = (q * 256 / 256) mod 256)
    by (Z.div_mod_to_equations; lia).
  assert (H0 : ((q * 256 + k) / 1) mod 256 = k)
    by (Z.div_mod_to_equations; lia).
  rewrite H3, H2, H1, H0. reflexivity.
Qed.

Lemma string_append_assoc (a b c : string) :
  ((a ++ b) ++ c = a ++ (b ++ c))%string.
Proof.
  induction a as [| x a IH]; cbn [String.append]; [reflexivity |].
  rewrite IH. reflexivity.
Qed.

Lemma range_shift (a lo hi : Z) :
  range (a + lo) (a + hi) = map (fun k => a + k) (range lo hi).
Proof.
  unfold range. rewrite map_map.
  replace (a + hi - (a + lo)) with (hi - lo) by lia.
  apply map_ext. intros k. lia.
Qed.

Lemma string_from_low_octet (n : network) (k : Z) :
  (exists q, network_address n = q * 256) ->
  0 <= k < 256 ->
  string_from_ip_int (network_address n + k)
  = (first_three_octets n ++ str_of_int k)%string.
Proof.
  intros [q Hq] Hk. unfold string_from_ip_int, first_three_octets.
  rewrite Hq, to_bytes_low_octet by exact Hk.
  remember (firstn 3 (to_bytes_big4 (q * 256))) as pre eqn:Hpre.
  assert (Hlen : List.length pre = 3%nat) by (subst pre; reflexivity).
  destruct pre as [| a [| b [| c [| ? ?]]]]; try discriminate.
  cbn [map app String.concat].
  rewrite !string_append_assoc. reflexivity.
Qed.

End ipaddress_facts.

(** ** [sorted] *)

Section SortedFacts.

Context {A : Type}.

Lemma insert_keyed_permutation (x : Z * A) (l : list (Z * A)) :
  Permutation (insert_keyed x l) (x :: l).
Proof.
  induction l as [| y l IH]; cbn [insert_keyed].
  - reflexivity.
  - destruct (fst y <? fst x); [| reflexivity].
    rewrite IH. apply perm_swap.
Qed.

Lemma sort_keyed_permutation (l : list (Z * A)) :
  Permutation (sort_keyed l) l.
Proof.
  induction l as [| x l IH]; cbn [sort_keyed fold_right].
  - reflexivity.
  - fold (sort_keyed l). rewrite insert_keyed_permutation.
    constructor. exact IH.
Qed.

Lemma insert_keyed_sorted (x : Z * A) (l : list (Z * A)) :
  StronglySorted (@key_le A) l -> StronglySorted (@key_le A) (insert_keyed x l).
Proof.
  induction 1 as [| y l Hs IH Hall]; cbn [insert_keyed].
  - repeat constructor.
  - destruct (Z.ltb_spec (fst y) (fst x)) as [Hlt | Hge].
    + constructor; [exact IH |].
      eapply Permutation_Forall;
        [symmetry; apply insert_keyed_permutation |].
      constructor; [unfold key_le; lia | exact Hall].
    + constructor; [constructor; assumption |].
      constructor; [exact Hge |].
      eapply Forall_impl; [| exact Hall].
      intros z Hz. unfold key_le in *. lia.
Qed.

Lemma sort_keyed_sorted (l : list (Z * A)) :
  StronglySorted (@key_le A) (sort_keyed l).
Proof.
  induction l as [| x l IH]; cbn [sort_keyed fold_right].
  - constructor.
  - apply insert_keyed_sorted. exact IH.
Qed.

Variable key : A -> outcome Z.

Lemma keyed_eq (xs : list A) :
  forall ks,
    keyed key xs = Return ks ->
    map snd ks = xs /\
    Forall (fun kx => key (snd kx) = Return (fst kx)) ks.
Proof.
  induction xs as [| x xs IH]; intros ks Hks; cbn [keyed] in Hks.
  - injection Hks as <-. split; constructor.
  - destruct (key x) as [k |] eqn:Hk; [| discriminate].
    destruct (keyed key xs) as [ks' |]; [| discriminate].
    injection Hks as <-. destruct (IH ks' eq_refl) as [Hmap Hall].
    split; [cbn; f_equal; exact Hmap |].
    constructor; [exact Hk | exact Hall].
Qed.

Lemma keyed_total (xs : list A) :
  Forall (fun x => exists k, key x = Return k) xs ->
  exists ks, keyed key xs = Return ks.
Proof.
  induction 1 as [| x xs [k Hk] _ [ks Hks]]; cbn [keyed].
  - eexists. reflexivity.
  - rewrite Hk, Hks. eexists. reflexivity.
Qed.

Lemma sorted_eq (xs l : list A) :
  sorted xs key = Return l ->
  Permutation l xs /\
  exists values,
    Forall2 (fun x v => key x = Return v) l values /\
    StronglySorted Z.le values.
Proof.
  unfold sorted. destruct (keyed key xs) as [ks |] eqn:Hks; [| discriminate].
  intros Hl. injection Hl as <-.
  destruct (keyed_eq xs ks Hks) as [Hmap Hall].
  split.
  - rewrite <- Hmap. apply Permutation_map, sort_keyed_permutation.
  - exists (map fst (sort_keyed ks)). split.
    + assert (Hall' : Forall (fun kx => key (snd kx) = Return (fst kx))
                             (sort_keyed ks)).
      { eapply Permutation_Forall;
          [symmetry; apply sort_keyed_permutation | exact Hall]. }
      induction Hall' as [| kx rest Hkx _ IHr]; cbn [map]; constructor;
        assumption.
    + pose proof (sort_keyed_sorted ks) as Hs.
      induction Hs as [| kx rest _ IHs Hfa]; cbn [map]; constructor.
      * exact IHs.
      * apply Forall_map. exact Hfa.
Qed.

End SortedFacts.

(** A list sorted by a key is determined by its elements when the keys are
    pairwise distinct. *)
Lemma sorted_by_unique {A : Type} (kf : A -> Z) (l : list A) :
  forall t,
    StronglySorted (fun a b => kf a <= kf b) l ->
    StronglySorted (fun a b => kf a < kf b) t ->
    Permutation l t -> l = t.
Proof.
  induction l as [| a l IH]; intros t Hl Ht Hperm.
  - apply Permutation_nil in Hperm. congruence.
  - destruct t as [| b t].
    { symmetry in Hperm. apply Permutation_nil in Hperm. discriminate. }
    inversion Hl as [| ? ? Hl' Hal]; subst.
    inversion Ht as [| ? ? Ht' Hbt]; subst.
    assert (Hab : a = b).
    { assert (Ha : In a (b :: t))
        by (eapply Permutation_in; [exact Hperm | left; reflexivity]).
      assert (Hb : In b (a :: l))
        by (eapply Permutation_in;
            [symmetry; exact Hperm | left; reflexivity]).
      destruct Ha as [Ha | Ha]; [congruence |].
      destruct Hb as [Hb | Hb]; [congruence |].
      rewrite Forall_forall in Hal, Hbt.
      specialize (Hal b Hb). specialize (Hbt a Ha). lia. }
    subst b. f_equal.
    apply IH; try assumption.
    eapply Permutation_cons_inv. exact Hperm.
Qed.

Lemma filter_strongly_sorted {A : Type} (R : A -> A -> Prop)
    (f : A -> bool) (l : list A) :
  StronglySorted R l -> StronglySorted R (filter f l).
Proof.
  induction 1 as [| x l _ IH Hall]; cbn [filter].
  - constructor.
  - destruct (f x); [| exact IH].
    constructor; [exact IH |].
    rewrite Forall_forall in *. intros y Hy.
    apply filter_In in Hy. apply Hall. tauto.
Qed.

Lemma filter_map_comm {A B : Type} (g : A -> B) (f : B -> bool)
    (l : list A) :
  filter f (map g l) = map g (filter (fun x => f (g x)) l).
Proof.
  induction l as [| x l IH]; cbn [map filter]; [reflexivity |].
  destruct (f (g x)); cbn [map]; rewrite IH; reflexivity.
Qed.

(** ** The usable hosts of a parsed range *)

Section HostFacts.

Import ipaddress ipaddress_facts.

Variable n : network.
Hypothesis Hwf : well_formed n.

Lemma address_value_host (h : Z) :
  In h (hosts n) -> IPv4Address (string_from_ip_int h) = Return h.
Proof.
  intros Hin. apply string_from_ip_int_round_trip.
  apply (hosts_in_block n h Hwf Hin).
Qed.

Lemma host_ips_address (ip : string) :
  In ip (host_ips_of n) ->
  exists h, In h (hosts n) /\ ip = string_from_ip_int h /\
            IPv4Address ip = Return h.
Proof.
  unfold host_ips_of. intros Hin. apply in_map_iff in Hin.
  destruct Hin as [h [<- Hh]]. exists h.
  repeat split; [exact Hh | apply address_value_host; exact Hh].
Qed.

Lemma strongly_sorted_map {A B : Type} (R : B -> B -> Prop) (g : A -> B)
    (l : list A) :
  StronglySorted R (map g l) <-> StronglySorted (fun a b => R (g a) (g b)) l.
Proof.
  induction l as [| x l IH]; cbn [map]; split; intros H;
    try constructor; inversion H; subst;
    try (apply IH; assumption);
    rewrite Forall_map in *; assumption.
Qed.

Lemma strongly_sorted_weaken {A : Type} (R S : A -> A -> Prop)
    (l : list A) :
  (forall a b, R a b -> S a b) ->
  StronglySorted R l -> StronglySorted S l.
Proof.
  intros HRS. induction 1 as [| x l _ IH Hall]; constructor.
  - exact IH.
  - eapply Forall_impl; [| exact Hall]. intros b. apply HRS.
Qed.

Lemma host_ips_sorted :
  StronglySorted (fun a b => address_value a < address_value b)
                 (host_ips_of n).
Proof.
  unfold host_ips_of.
  apply (proj2 (strongly_sorted_map
                  (fun a b => address_value a < address_value b)
                  string_from_ip_int (hosts n))).
  pose proof (hosts_sorted n Hwf) as Hs.
  assert (Hval : forall h, In h (hosts n) ->
                   address_value (string_from_ip_int h) = h).
  { intros h Hh. unfold address_value.
    rewrite address_value_host by exact Hh. reflexivity. }
  induction Hs as [| h l Hs IH Hall].
  - constructor.
  - constructor.
    + apply IH. intros k Hk. apply Hval. right. exact Hk.
    + rewrite Forall_forall in *. intros k Hk.
      rewrite !Hval by (try (left; reflexivity); right; exact Hk).
      apply Hall. exact Hk.
Qed.

Lemma strict_sorted_NoDup {A : Type} (kf : A -> Z) (l : list A) :
  StronglySorted (fun a b => kf a < kf b) l -> NoDup l.
Proof.
  induction 1 as [| x l _ IH Hall]; constructor; [| exact IH].
  intros Hin. rewrite Forall_forall in Hall.
  specialize (Hall x Hin). lia.
Qed.

Lemma host_ips_NoDup : NoDup (host_ips_of n).
Proof. eapply strict_sorted_NoDup. exact host_ips_sorted. Qed.

Lemma forall2_address_value (l : list string) (values : list Z) :
  Forall2 (fun ip v => IPv4Address ip = Return v) l values ->
  values = map address_value l.
Proof.
  induction 1 as [| ip v l values Hv _ IH]; cbn [map]; [reflexivity |].
  unfold address_value at 1. rewrite Hv, IH. reflexivity.
Qed.

(** Sorting any arrangement of a selection of the hosts gives the
    selection in range order. *)
Lemma sorted_selection (f : string -> bool) (xs : list string) :
  Permutation xs (filter f (host_ips_of n)) ->
  sorted xs IPv4Address = Return (filter f (host_ips_of n)).
Proof.
  intros Hperm.
  assert (Hkeys : Forall (fun x => exists k, IPv4Address x = Return k) xs).
  { apply Forall_forall. intros x Hx.
    assert (Hin : In x (host_ips_of n)).
    { eapply Permutation_in in Hx; [| exact Hperm].
      apply filter_In in Hx. tauto. }
    destruct (host_ips_address x Hin) as [h [_ [_ Hh]]].
    exists h. exact Hh. }
  destruct (keyed_total IPv4Address xs Hkeys) as [ks Hks].
  destruct (sorted xs IPv4Address) as [l | e] eqn:Hsorted.
  - f_equal.
    destruct (sorted_eq IPv4Address xs l Hsorted)
      as [Hpl [values [Hvals Hsort]]].
    apply (sorted_by_unique address_value).
    + rewrite (forall2_address_value l values Hvals) in Hsort.
      exact (proj1 (strongly_sorted_map Z.le address_value l) Hsort).
    + apply filter_strongly_sorted. exact host_ips_sorted.
    + etransitivity; eassumption.
  - unfold sorted in Hsorted. rewrite Hks in Hsorted. discriminate.
Qed.

Lemma selection_ascending (f : string -> bool) :
  ascending (filter f (host_ips_of n)).
Proof.
  exists (map address_value (filter f (host_ips_of n))). split.
  - assert (Hin : forall ip, In ip (filter f (host_ips_of n)) ->
                    In ip (host_ips_of n)).
    { intros ip Hip. apply filter_In in Hip. tauto. }
    induction (filter f (host_ips_of n)) as [| ip l IH]; cbn [map];
      constructor.
    + destruct (host_ips_address ip (Hin ip (or_introl eq_refl)))
        as [h [_ [_ Hh]]].
      unfold address_value. rewrite Hh. reflexivity.
    + apply IH. intros x Hx. apply Hin. right. exact Hx.
  - apply (proj2 (strongly_sorted_map Z.le address_value _)).
    eapply strongly_sorted_weaken;
      [| apply filter_strongly_sorted; exact host_ips_sorted].
    intros a b Hab. cbv beta in *. lia.
Qed.

End HostFacts.

(** ** [ping_host] *)

Lemma bind_print {A : Type} (l : line) (k : Py A) (tr : trace) :
  (print l ;;; k) tr = k (tr ++ [Printed l]).
Proof. reflexivity. Qed.

Section PingHostFacts.

Variable process : list string -> Z -> outcome Z.

Lemma ping_host_eq (ip : string) (timeout : Z) (tr : trace) :
  ping_host process ip timeout tr
  = (Return (ip, answers process timeout ip),
     tr ++ ping_events process timeout ip).
Proof.
  unfold ping_host, try_except, bind, subprocess_run, answers, ping_events.
  fold (ping_argv ip timeout).
  destruct (process (ping_argv ip timeout) (timeout + 1)) as [rc | e].
  - reflexivity.
  - destruct e; unfold print, ret; cbn;
      rewrite <- ?app_assoc; reflexivity.
Qed.

Lemma as_completed_loop_eq (timeout : Z) (host_ips : list string) :
  forall (order : list nat) (st : scan_state) (tr : trace),
    as_completed_loop process (map (fun ip => (ip, timeout)) host_ips)
                      order st tr
    = (Return
         (mkScan
            (non_pingable st ++
             filter (fun ip => negb (answers process timeout ip))
                    (yielded host_ips order))
            (pingable_count st +
             List.length (filter (answers process timeout)
                                 (yielded host_ips order)))),
       tr ++ loop_events process timeout (yielded host_ips order)).
Proof.
  induction order as [| f rest IH]; intros st tr.
  - cbn. unfold ret. destruct st as [np c]; cbn.
    rewrite !app_nil_r, Nat.add_0_r. reflexivity.
  - cbn [as_completed_loop yielded flat_map].
    rewrite nth_error_map.
    destruct (nth_error host_ips f) as [ip |]; cbn [option_map].
    + unfold bind at 1. rewrite ping_host_eq.
      cbn [app filter loop_events flat_map].
      fold (yielded host_ips rest).
      fold (loop_events process timeout (yielded host_ips rest)).
      destruct (answers process timeout ip) eqn:Hans; cbn [negb].
      * rewrite bind_print, IH.
        cbn [non_pingable pingable_count List.length].
        rewrite <- !app_assoc. f_equal. f_equal. f_equal. lia.
      * rewrite bind_print, IH.
        cbn [non_pingable pingable_count].
        rewrite <- !app_assoc. reflexivity.
    + cbn [app]. apply IH.
Qed.

End PingHostFacts.

(** ** [scan_subnet] on a range that parses *)

Lemma yielded_app (host_ips : list string) (o1 o2 : list nat) :
  yielded host_ips (o1 ++ o2) = yielded host_ips o1 ++ yielded host_ips o2.
Proof. unfold yielded. apply flat_map_app. Qed.

Lemma yielded_seq_from (pre l : list string) :
  yielded (pre ++ l) (seq (List.length pre) (List.length l)) = l.
Proof.
  revert pre. induction l as [| ip l IH]; intros pre.
  - reflexivity.
  - cbn [List.length seq yielded flat_map].
    rewrite nth_error_app2, Nat.sub_diag by lia. cbn [nth_error app].
    f_equal.
    specialize (IH (pre ++ [ip])).
    rewrite <- app_assoc, length_app in IH. cbn [List.length app] in IH.
    rewrite Nat.add_1_r in IH. exact IH.
Qed.

Lemma yielded_seq (host_ips : list string) :
  yielded host_ips (seq 0 (List.length host_ips)) = host_ips.
Proof. exact (yielded_seq_from [] host_ips). Qed.

Lemma yielded_permutation (host_ips : list string) (order : list nat) :
  Permutation order (seq 0 (List.length host_ips)) ->
  Permutation (yielded host_ips order) host_ips.
Proof.
  intros Hperm. rewrite <- (yielded_seq host_ips) at 2.
  unfold yielded. apply Permutation_flat_map. exact Hperm.
Qed.

Lemma filter_permutation {A : Type} (f : A -> bool) (l l' : list A) :
  Permutation l l' -> Permutation (filter f l) (filter f l').
Proof.
  induction 1 as [| x l l' _ IH | x y l | l l' l'' _ IH1 _ IH2]; cbn.
  - constructor.
  - destruct (f x); [constructor |]; exact IH.
  - destruct (f x), (f y); try reflexivity. constructor.
  - etransitivity; eassumption.
Qed.

Lemma filter_split_length {A : Type} (f : A -> bool) (l : list A) :
  (List.length (filter f l) + List.length (filter (fun x => negb (f x)) l)
   = List.length l)%nat.
Proof.
  induction l as [| x l IH]; cbn; [reflexivity |].
  destruct (f x); cbn; lia.
Qed.

Section ScanFacts.

Variable process : list string -> Z -> outcome Z.

Lemma scan_subnet_valid (subnet : string) (network : ipaddress.network)
    (max_workers timeout : Z) (order : list nat) (tr : trace) :
  ipaddress.IPv4Network subnet false = Return network ->
  0 < max_workers ->
  let seen := yielded (host_ips_of network) order in
  let unreachable := filter (fun ip => negb (answers process timeout ip)) seen in
  let pingable := List.length (filter (answers process timeout) seen) in
  scan_subnet process subnet max_workers timeout order tr
  = (Return unreachable,
     tr ++ scan_header subnet (List.length (host_ips_of network))
                       max_workers timeout
        ++ loop_events process timeout seen
        ++ scan_footer pingable (List.length unreachable)).
Proof.
  intros Hparse Hpos seen unreachable pingable.
  unfold scan_subnet, try_except, scan_body.
  unfold bind at 1. unfold lift. rewrite Hparse.
  rewrite !bind_print.
  unfold bind at 1.
  destruct (Z.leb_spec max_workers 0) as [Hle | _]; [lia |].
  rewrite as_completed_loop_eq. rewrite !bind_print. unfold ret.
  cbn [non_pingable pingable_count app Nat.add].
  unfold scan_footer, scan_header, unreachable, pingable, seen.
  rewrite <- !app_assoc. reflexivity.
Qed.

Lemma scan_subnet_invalid (subnet : string) (e : exn)
    (max_workers timeout : Z) (order : list nat) (tr : trace) :
  ipaddress.IPv4Network subnet false = Raise e ->
  scan_subnet process subnet max_workers timeout order tr
  = (Return [], tr ++ [Printed (ErrorScanning e)]).
Proof.
  intros Hparse.
  unfold scan_subnet, try_except, scan_body, bind, lift.
  rewrite Hparse. reflexivity.
Qed.

End ScanFacts.

(** ** The report of [main] *)

Lemma strict_parse_is_parse (subnet : string) (n : ipaddress.network) :
  ipaddress.IPv4Network subnet true = Return n ->
  ipaddress.IPv4Network subnet false = Return n.
Proof.
  unfold ipaddress.IPv4Network.
  destruct (split "/" subnet) as [| addr rest]; [discriminate |].
  destruct (1 <? List.length rest)%nat; [discriminate |].
  destruct (ipaddress.IPv4Address addr) as [packed |]; [| discriminate].
  destruct (match rest with
            | [] => Return ipaddress.max_prefixlen
            | m :: _ => ipaddress.make_netmask m
            end) as [p |]; [| discriminate].
  rewrite andb_false_r.
  destruct (negb _ && true); [discriminate | trivial].
Qed.

Lemma printed_items_app (t1 t2 : trace) :
  printed_items (t1 ++ t2) = printed_items t1 ++ printed_items t2.
Proof. unfold printed_items. apply flat_map_app. Qed.

Lemma printed_items_listing (ips : list string) :
  printed_items (map (fun ip => Printed (NonPingableItem ip)) ips) = ips.
Proof.
  induction ips as [| ip ips IH]; cbn; [reflexivity |].
  f_equal. exact IH.
Qed.

Lemma for_each_print (f : string -> line) (ips : list string) :
  forall tr,
    for_each ips (fun ip => print (f ip)) tr
    = (Return tt, tr ++ map (fun ip => Printed (f ip)) ips).
Proof.
  induction ips as [| ip ips IH]; intros tr; cbn [for_each map].
  - unfold ret. rewrite app_nil_r. reflexivity.
  - rewrite bind_print, IH, <- app_assoc. reflexivity.
Qed.

Lemma bind_assoc {A B C : Type} (m : Py A) (k1 : A -> Py B)
    (k2 : B -> Py C) (tr : trace) :
  bind (bind m k1) k2 tr = bind m (fun x => bind (k1 x) k2) tr.
Proof.
  unfold bind. destruct (m tr) as [[a | e] tr']; reflexivity.
Qed.

Lemma bind_lift_return {A B : Type} (a : A) (k : A -> Py B) (tr : trace) :
  bind (lift (Return a)) k tr = k a tr.
Proof. reflexivity. Qed.

Lemma bind_ret {A B : Type} (a : A) (k : A -> Py B) (tr : trace) :
  bind (ret a) k tr = k a tr.
Proof. reflexivity. Qed.

Lemma bind_for_each_print {B : Type} (f : string -> line)
    (ips : list string) (k : Py B) (tr : trace) :
  (for_each ips (fun ip => print (f ip)) ;;; k) tr
  = k (tr ++ map (fun ip => Printed (f ip)) ips).
Proof. unfold bind. rewrite for_each_print. reflexivity. Qed.

Section ReportFacts.

Variable process : list string -> Z -> outcome Z.

Lemma printed_items_loop (timeout : Z) (ips : list string) :
  printed_items (loop_events process timeout ips) = [].
Proof.
  induction ips as [| ip ips IH]; [reflexivity |].
  cbn [loop_events flat_map]. fold (loop_events process timeout ips).
  rewrite !printed_items_app, IH.
  unfold ping_events.
  destruct (process (ping_argv ip timeout) (timeout + 1)) as [rc | e];
    [| destruct e];
    destruct (answers process timeout ip); reflexivity.
Qed.

(** The report lists the sorted addresses, whatever else it prints. *)
Lemma main_report_items (subnet : string) (n : ipaddress.network)
    (ips listed : list string) (tr : trace) :
  ipaddress.IPv4Network subnet true = Return n ->
  sorted ips ipaddress.IPv4Address = Return listed ->
  exists tr',
    main_report subnet ips tr = (Return tt, tr') /\
    printed_items tr' = printed_items tr ++ listed.
Proof.
  intros Hparse Hsorted. unfold main_report, count_hosts.
  rewrite !bind_print.
  destruct ips as [| ip ips].
  - cbn in Hsorted. injection Hsorted as <-.
    repeat (rewrite bind_assoc || rewrite bind_print
            || rewrite Hparse || rewrite bind_lift_return
            || rewrite bind_ret).
    unfold print.
    eexists. split; [reflexivity |].
    rewrite !printed_items_app. cbn. rewrite !app_nil_r. reflexivity.
  - rewrite Hsorted.
    repeat (rewrite bind_assoc || rewrite bind_print
            || rewrite Hparse || rewrite bind_lift_return
            || rewrite bind_ret || rewrite bind_for_each_print).
    unfold print.
    eexists. split; [reflexivity |].
    rewrite !printed_items_app, printed_items_listing. cbn.
    rewrite !app_nil_r. reflexivity.
Qed.

End ReportFacts.

(** * The properties of the specification *)

(** ** Prober *)

(** C8.  For every input address string and timeout, [ping_host] returns
    and never raises, and the first component of the pair it returns is
    the input address string itself, whether the [ping] process exits (with
    any code), [subprocess.run] times out, or it raises anything else. *)
Theorem ping_host_total_keeps_target
    (process : list string -> Z -> outcome Z)
    (ip : string) (timeout : Z) (tr : trace) :
  exists is_reachable tr',
    ping_host process ip timeout tr = (Return (ip, is_reachable), tr') /\
    is_reachable
    = match process (ping_argv ip timeout) (timeout + 1) with
      | Return returncode => returncode =? 0
      | Raise _ => false
      end.
Proof.
  exists (answers process timeout ip), (tr ++ ping_events process timeout ip).
  split; [apply ping_host_eq | reflexivity].
Qed.

(** C5.  For every target and positive timeout, [ping_host] returns the
    outcome [(target, False)] whenever the timeout elapses
    ([TimeoutExpired]), the probe mechanism reports failure (a non-zero
    return code), or any other error is raised while probing; none of these
    is propagated as an exception. *)
Theorem ping_host_failure_is_unreachable
    (process : list string -> Z -> outcome Z)
    (ip : string) (timeout : Z) (tr : trace) :
  0 < timeout ->
  process (ping_argv ip timeout) (timeout + 1) = Raise TimeoutExpired \/
  (exists returncode,
     process (ping_argv ip timeout) (timeout + 1) = Return returncode /\
     returncode <> 0) \/
  (exists e, process (ping_argv ip timeout) (timeout + 1) = Raise e) ->
  exists tr', ping_host process ip timeout tr = (Return (ip, false), tr').
Proof.
  intros _ Hfail. exists (tr ++ ping_events process timeout ip).
  assert (Hans : answers process timeout ip = false).
  { unfold answers. destruct Hfail as [Ht | [[rc [Hrc Hne]] | [e He]]].
    - rewrite Ht. reflexivity.
    - rewrite Hrc. apply Z.eqb_neq. exact Hne.
    - rewrite He. reflexivity. }
  rewrite ping_host_eq, Hans. reflexivity.
Qed.

Lemma ping_host_failure_is_unreachable_witness :
  0 < 1 /\
  exists tr',
    ping_host (fun _ _ => Return 2) "10.0.0.1" 1 []
    = (Return ("10.0.0.1", false), tr').
Proof.
  split; [lia |].
  apply (ping_host_failure_is_unreachable
           (fun _ _ => Return 2) "10.0.0.1" 1 []).
  - lia.
  - right. left. exists 2. split; [reflexivity | discriminate].
Defined.

(** ** Scanner: two concrete scans of [10.0.0.0/30] *)

Example scan_30_none_answers :
  fst (scan_subnet (fun _ _ => Return 1) "10.0.0.0/30" 50 1 [0; 1]%nat [])
  = Return ["10.0.0.1"; "10.0.0.2"].
Proof. reflexivity. Qed.

Example scan_30_first_answers :
  scan_subnet (fun argv _ =>
                 if (nth 5 argv "" =? "10.0.0.1")%string
                 then Return 0 else Return 1)
              "10.0.0.0/30" 50 1 [0; 1]%nat []
  = (Return ["10.0.0.2"],
     scan_header "10.0.0.0/30" 2 50 1
     ++ [SubprocessRun (ping_argv "10.0.0.1" 1) 2;
         Printed (HostReachable "10.0.0.1");
         SubprocessRun (ping_argv "10.0.0.2" 1) 2;
         Printed (HostNotReachable "10.0.0.2")]
     ++ scan_footer 1 1).
Proof. reflexivity. Qed.

(** ** Scanner: ranges that do not parse *)

(** C3, as the code has it.  For every input range string that cannot be
    parsed as an IPv4 network, [scan_subnet] raises nothing: it prints one
    error line and returns the empty list, and no probe is issued. *)
Theorem scan_subnet_unparseable
    (process : list string -> Z -> outcome Z)
    (subnet : string) (e : exn) (max_workers timeout : Z)
    (order : list nat) (tr : trace) :
  ipaddress.IPv4Network subnet false = Raise e ->
  scan_subnet process subnet max_workers timeout order tr
  = (Return [], tr ++ [Printed (ErrorScanning e)]) /\
  probes (snd (scan_subnet process subnet max_workers timeout order tr))
  = probes tr.
Proof.
  intros Hparse.
  rewrite (scan_subnet_invalid process subnet e max_workers timeout order tr
             Hparse).
  split; [reflexivity |].
  cbn [snd]. unfold probes. rewrite flat_map_app. cbn.
  apply app_nil_r.
Qed.

Lemma scan_subnet_unparseable_witness :
  ipaddress.IPv4Network "not-an-ip/24" false = Raise AddressValueError /\
  scan_subnet (fun _ _ => Return 0) "not-an-ip/24" 50 1 [] []
  = (Return [], [] ++ [Printed (ErrorScanning AddressValueError)]) /\
  probes (snd (scan_subnet (fun _ _ => Return 0) "not-an-ip/24" 50 1 [] []))
  = probes [].
Proof.
  split; [reflexivity |].
  apply (scan_subnet_unparseable (fun _ _ => Return 0) "not-an-ip/24"
           AddressValueError 50 1 [] []).
  reflexivity.
Defined.

(** C3, as the specification words it, fails: on ["not-an-ip/24"] and on a
    prefix length of 33 the range does not parse, yet [scan_subnet]
    returns (the empty list) instead of raising. *)
Lemma scan_subnet_unparseable_does_not_raise :
  ipaddress.IPv4Network "not-an-ip/24" false = Raise AddressValueError /\
  ipaddress.IPv4Network "10.0.0.0/33" false = Raise NetmaskValueError /\
  ~ (exists e tr',
       scan_subnet (fun _ _ => Return 0) "not-an-ip/24" 50 1 [] []
       = (Raise e, tr')) /\
  ~ (exists e tr',
       scan_subnet (fun _ _ => Return 0) "10.0.0.0/33" 50 1 [] []
       = (Raise e, tr')).
Proof.
  repeat split; try reflexivity; intros [e [tr' H]]; vm_compute in H;
    discriminate H.
Qed.

(** C9.  For every input string (and every worker count, timeout and
    completion order) [scan_subnet] returns a list and never raises.  When
    the range does not parse, or any other exception leaves the [try]
    block, the list is empty; this is also what a successful scan of a
    range whose hosts all answer returns. *)
Theorem scan_subnet_never_raises
    (process : list string -> Z -> outcome Z)
    (subnet : string) (max_workers timeout : Z)
    (order : list nat) (tr : trace) :
  (exists l tr',
     scan_subnet process subnet max_workers timeout order tr
     = (Return l, tr') /\
     match scan_body process subnet max_workers timeout order tr with
     | (Return l0, tr0) => l = l0 /\ tr' = tr0
     | (Raise e, tr0) => l = [] /\ tr' = tr0 ++ [Printed (ErrorScanning e)]
     end /\
     match ipaddress.IPv4Network subnet false with
     | Return _ => True
     | Raise e => l = [] /\ tr' = tr ++ [Printed (ErrorScanning e)]
     end) /\
  fst (scan_subnet (fun _ _ => Return 0) "10.0.0.0/30" 50 1 [0; 1]%nat [])
  = Return [] /\
  fst (scan_subnet (fun _ _ => Return 0) "not-an-ip/24" 50 1 [0; 1]%nat [])
  = Return [].
Proof.
  split; [| split; reflexivity].
  unfold scan_subnet, try_except.
  destruct (scan_body process subnet max_workers timeout order tr)
    as [[l0 | e] tr0] eqn:Hbody.
  - exists l0, tr0. split; [reflexivity |]. split; [tauto |].
    destruct (ipaddress.IPv4Network subnet false) eqn:Hparse; [trivial |].
    unfold scan_body, bind, lift in Hbody. rewrite Hparse in Hbody.
    discriminate Hbody.
  - exists [], (tr0 ++ [Printed (ErrorScanning e)]).
    split; [reflexivity |]. split; [tauto |].
    destruct (ipaddress.IPv4Network subnet false) as [n | e'] eqn:Hparse;
      [trivial |].
    unfold scan_body, bind, lift in Hbody. rewrite Hparse in Hbody.
    injection Hbody as -> ->. tauto.
Qed.

(** ** Scanner: ranges that parse *)

Lemma scan_subnet_no_workers
    (process : list string -> Z -> outcome Z)
    (subnet : string) (network : ipaddress.network)
    (max_workers timeout : Z) (order : list nat) (tr : trace) :
  ipaddress.IPv4Network subnet false = Return network ->
  max_workers <= 0 ->
  fst (scan_subnet process subnet max_workers timeout order tr) = Return [].
Proof.
  intros Hparse Hle.
  unfold scan_subnet, try_except, scan_body.
  unfold bind at 1. unfold lift. rewrite Hparse.
  rewrite !bind_print. unfold bind at 1.
  destruct (Z.leb_spec max_workers 0) as [_ | Hgt]; [| lia].
  reflexivity.
Qed.

(** C1.  For every valid address range the scan puts every usable host in
    exactly one of the two buckets: the count of reachable hosts (the
    number printed on the "Pingable hosts" line) plus the length of the
    returned unreachable list is the number of usable hosts of the range;
    a host is in the list exactly when its probe failed and is counted
    exactly when its probe succeeded. *)
Theorem scan_subnet_classifies_every_host
    (process : list string -> Z -> outcome Z)
    (subnet : string) (network : ipaddress.network)
    (max_workers timeout : Z) (order : list nat) (tr : trace) :
  ipaddress.IPv4Network subnet false = Return network ->
  0 < max_workers ->
  Permutation order (seq 0 (List.length (host_ips_of network))) ->
  exists unreachable pingable evs,
    scan_subnet process subnet max_workers timeout order tr
    = (Return unreachable,
       tr ++ evs ++ scan_footer pingable (List.length unreachable)) /\
    (pingable + List.length unreachable
     = List.length (host_ips_of network))%nat /\
    pingable
    = List.length (filter (answers process timeout) (host_ips_of network)) /\
    Permutation unreachable
      (filter (fun ip => negb (answers process timeout ip))
              (host_ips_of network)) /\
    (forall ip, In ip (host_ips_of network) ->
       (In ip unreachable <-> answers process timeout ip = false)).
Proof.
  intros Hparse Hpos Horder.
  pose proof (yielded_permutation (host_ips_of network) order Horder)
    as Hseen.
  set (seen := yielded (host_ips_of network) order) in *.
  exists (filter (fun ip => negb (answers process timeout ip)) seen),
         (List.length (filter (answers process timeout) seen)),
         (scan_header subnet (List.length (host_ips_of network))
                      max_workers timeout
          ++ loop_events process timeout seen).
  assert (Hun : Permutation
                  (filter (fun ip => negb (answers process timeout ip)) seen)
                  (filter (fun ip => negb (answers process timeout ip))
                          (host_ips_of network)))
    by (apply filter_permutation; exact Hseen).
  split; [| split; [| split; [| split]]].
  - rewrite (scan_subnet_valid process subnet network max_workers timeout
               order tr Hparse Hpos).
    fold seen. rewrite <- !app_assoc. reflexivity.
  - rewrite filter_split_length. apply Permutation_length. exact Hseen.
  - apply Permutation_length, filter_permutation. exact Hseen.
  - exact Hun.
  - intros ip Hip. split.
    + intros Hin. eapply Permutation_in in Hin; [| exact Hun].
      apply filter_In in Hin. apply negb_true_iff. tauto.
    + intros Hans. eapply Permutation_in; [symmetry; exact Hun |].
      apply filter_In. split; [exact Hip |]. rewrite Hans. reflexivity.
Qed.

Lemma scan_subnet_classifies_every_host_witness :
  exists unreachable pingable evs,
    scan_subnet (fun argv _ =>
                   if (nth 5 argv "" =? "10.0.0.1")%string
                   then Return 0 else Return 1)
                "10.0.0.0/30" 50 1 [1; 0]%nat []
    = (Return unreachable,
       [] ++ evs ++ scan_footer pingable (List.length unreachable)) /\
    (pingable + List.length unreachable = 2)%nat.
Proof.
  destruct (scan_subnet_classifies_every_host
              (fun argv _ =>
                 if (nth 5 argv "" =? "10.0.0.1")%string
                 then Return 0 else Return 1)
              "10.0.0.0/30" (ipaddress.mkNetwork 167772160 30)
              50 1 [1; 0]%nat [])
    as [unreachable [pingable [evs [Hscan [Hsum _]]]]].
  - reflexivity.
  - lia.
  - apply perm_swap.
  - exists unreachable, pingable, evs. split; [exact Hscan | exact Hsum].
Defined.

(** C10.  Every element of the list that [scan_subnet] returns for a valid
    range is one of the usable hosts of that range, and no address occurs
    in the list twice. *)
Theorem scan_subnet_returns_hosts_once
    (process : list string -> Z -> outcome Z)
    (subnet : string) (network : ipaddress.network)
    (max_workers timeout : Z) (order : list nat) (tr : trace) :
  ipaddress.IPv4Network subnet false = Return network ->
  Permutation order (seq 0 (List.length (host_ips_of network))) ->
  exists l tr',
    scan_subnet process subnet max_workers timeout order tr
    = (Return l, tr') /\
    incl l (host_ips_of network) /\
    NoDup l.
Proof.
  intros Hparse Horder.
  destruct (Z.le_gt_cases max_workers 0) as [Hle | Hgt].
  - pose proof (scan_subnet_no_workers process subnet network max_workers
                  timeout order tr Hparse Hle) as Hnone.
    destruct (scan_subnet process subnet max_workers timeout order tr)
      as [o tr'].
    cbn [fst] in Hnone. subst o. exists [], tr'.
    split; [reflexivity |]. split; [intros x [] | constructor].
  - pose proof (yielded_permutation (host_ips_of network) order Horder)
      as Hseen.
    assert (Hun : Permutation
              (filter (fun ip => negb (answers process timeout ip))
                      (yielded (host_ips_of network) order))
              (filter (fun ip => negb (answers process timeout ip))
                      (host_ips_of network)))
      by (apply filter_permutation; exact Hseen).
    eexists. eexists. split.
    + apply (scan_subnet_valid process subnet network max_workers timeout
               order tr Hparse). lia.
    + split.
      * intros ip Hip. eapply Permutation_in in Hip; [| exact Hun].
        apply filter_In in Hip. tauto.
      * eapply Permutation_NoDup; [symmetry; exact Hun |].
        apply NoDup_filter, host_ips_NoDup.
        eapply ipaddress_facts.IPv4Network_well_formed. exact Hparse.
Qed.

Lemma scan_subnet_returns_hosts_once_witness :
  exists l tr',
    scan_subnet (fun _ _ => Return 1) "10.0.0.0/30" 50 1 [1; 0]%nat []
    = (Return l, tr') /\
    incl l (host_ips_of (ipaddress.mkNetwork 167772160 30)) /\
    NoDup l.
Proof.
  apply (scan_subnet_returns_hosts_once (fun _ _ => Return 1)
           "10.0.0.0/30" (ipaddress.mkNetwork 167772160 30)
           50 1 [1; 0]%nat []).
  - reflexivity.
  - apply perm_swap.
Defined.

(** ** Order of the unreachable list *)

(** C2, as the specification words it, fails: with the probes of
    [10.0.0.0/30] completing in the order [.2], [.1] and both failing,
    [scan_subnet] returns the list in that order, which is not
    ascending. *)
Lemma scan_subnet_returns_completion_order :
  Permutation [1; 0]%nat
    (seq 0 (List.length (host_ips_of (ipaddress.mkNetwork 167772160 30)))) /\
  fst (scan_subnet (fun _ _ => Return 1) "10.0.0.0/30" 50 1 [1; 0]%nat [])
  = Return ["10.0.0.2"; "10.0.0.1"] /\
  ~ ascending ["10.0.0.2"; "10.0.0.1"].
Proof.
  split; [apply perm_swap |]. split; [reflexivity |].
  intros [values [Hvals Hsorted]].
  inversion Hvals as [| ip2 v2 l2 vs2 H2 Hrest]; subst.
  inversion Hrest as [| ip1 v1 l1 vs1 H1 Hnil]; subst.
  inversion Hnil; subst.
  vm_compute in H2. vm_compute in H1.
  injection H2 as <-. injection H1 as <-.
  inversion Hsorted as [| ? ? _ Hall]; subst.
  inversion Hall as [| ? ? Hle _]; subst.
  lia.
Qed.

(** C2, as the code has it.  For every valid address range and every
    completion order of the probes, [scan_subnet] returns the unreachable
    hosts in the order in which their probes completed; [main] sorts that
    list, and the addresses it prints are in ascending order of numeric
    IPv4 address value (they are the unreachable hosts in range order). *)
Theorem main_prints_unreachable_ascending
    (process : list string -> Z -> outcome Z)
    (subnet : string) (network : ipaddress.network) (order : list nat) :
  ipaddress.IPv4Network subnet true = Return network ->
  Permutation order (seq 0 (List.length (host_ips_of network))) ->
  exists tr',
    (forall tr,
       fst (scan_subnet process subnet 50 1 order tr)
       = Return (filter (fun ip => negb (answers process 1 ip))
                        (yielded (host_ips_of network) order))) /\
    main_from process subnet order [] = (Return tt, tr') /\
    ascending (printed_items tr') /\
    printed_items tr'
    = filter (fun ip => negb (answers process 1 ip)) (host_ips_of network) /\
    Permutation (printed_items tr')
      (filter (fun ip => negb (answers process 1 ip))
              (yielded (host_ips_of network) order)).
Proof.
  intros Hstrict Horder.
  pose proof (strict_parse_is_parse subnet network Hstrict) as Hparse.
  pose proof (ipaddress_facts.IPv4Network_well_formed _ _ _ Hparse) as Hwf.
  pose proof (yielded_permutation (host_ips_of network) order Horder)
    as Hseen.
  set (unanswered := fun ip => negb (answers process 1 ip)).
  set (np := filter unanswered (yielded (host_ips_of network) order)).
  assert (Hun : Permutation np (filter unanswered (host_ips_of network)))
    by (apply filter_permutation; exact Hseen).
  pose proof (sorted_selection network Hwf unanswered np Hun) as Hsorted.
  assert (Hscan : forall tr,
            scan_subnet process subnet 50 1 order tr
            = (Return np,
               tr ++ scan_header subnet (List.length (host_ips_of network))
                                 50 1
                  ++ loop_events process 1
                       (yielded (host_ips_of network) order)
                  ++ scan_footer
                       (List.length
                          (filter (answers process 1)
                                  (yielded (host_ips_of network) order)))
                       (List.length np))).
  { intros tr. apply scan_subnet_valid; [exact Hparse | lia]. }
  unfold main_from. rewrite !bind_print.
  unfold bind at 1. rewrite Hscan. rewrite bind_print.
  match goal with
  | |- context [main_report subnet np ?t] =>
      destruct (main_report_items subnet network np _ t Hstrict Hsorted)
        as [tr' [Hreport Hitems]]
  end.
  exists tr'.
  assert (Hlist : printed_items tr' = filter unanswered (host_ips_of network)).
  { rewrite Hitems. rewrite !printed_items_app, printed_items_loop.
    reflexivity. }
  split; [intros tr; rewrite Hscan; reflexivity |].
  split; [exact Hreport |].
  split; [rewrite Hlist; apply selection_ascending; exact Hwf |].
  split; [exact Hlist |].
  rewrite Hlist. symmetry. exact Hun.
Qed.

Lemma main_prints_unreachable_ascending_witness :
  exists tr',
    main_from (fun _ _ => Return 1) "10.0.0.0/30" [1; 0]%nat []
    = (Return tt, tr') /\
    printed_items tr' = ["10.0.0.1"; "10.0.0.2"].
Proof.
  destruct (main_prints_unreachable_ascending (fun _ _ => Return 1)
              "10.0.0.0/30" (ipaddress.mkNetwork 167772160 30)
              [1; 0]%nat)
    as [tr' [_ [Hmain [_ [Hlist _]]]]].
  - reflexivity.
  - apply perm_swap.
  - exists tr'. split; [exact Hmain | exact Hlist].
Defined.

(** ** Running the scan twice *)

(** C6, as the specification words it, fails: two scans of [10.0.0.0/30]
    with the same probe behaviour (every probe fails) whose probes complete
    in different orders return the unreachable list in different orders. *)
Lemma scan_subnet_twice_different_order :
  Permutation [0; 1]%nat
    (seq 0 (List.length (host_ips_of (ipaddress.mkNetwork 167772160 30)))) /\
  Permutation [1; 0]%nat
    (seq 0 (List.length (host_ips_of (ipaddress.mkNetwork 167772160 30)))) /\
  fst (scan_subnet (fun _ _ => Return 1) "10.0.0.0/30" 50 1 [0; 1]%nat [])
  <> fst (scan_subnet (fun _ _ => Return 1) "10.0.0.0/30" 50 1 [1; 0]%nat []).
Proof.
  split; [apply Permutation_refl |]. split; [apply perm_swap |].
  vm_compute. discriminate.
Qed.

(** C6, as the code has it.  Two scans of the same valid range with the
    same probe behaviour print the same total and the same reachable count
    and return the same unreachable addresses; the two returned lists are
    arrangements of each other (each in the completion order of its run),
    and sorting them as [main] does gives the same list both times. *)
Theorem scan_subnet_twice_same_classification
    (process : list string -> Z -> outcome Z)
    (subnet : string) (network : ipaddress.network)
    (max_workers timeout : Z) (order1 order2 : list nat) (tr : trace) :
  ipaddress.IPv4Network subnet false = Return network ->
  0 < max_workers ->
  Permutation order1 (seq 0 (List.length (host_ips_of network))) ->
  Permutation order2 (seq 0 (List.length (host_ips_of network))) ->
  exists unreachable1 unreachable2 total pingable evs1 evs2 listed,
    scan_subnet process subnet max_workers timeout order1 tr
    = (Return unreachable1,
       tr ++ scan_header subnet total max_workers timeout ++ evs1
          ++ scan_footer pingable (List.length unreachable1)) /\
    scan_subnet process subnet max_workers timeout order2 tr
    = (Return unreachable2,
       tr ++ scan_header subnet total max_workers timeout ++ evs2
          ++ scan_footer pingable (List.length unreachable2)) /\
    Permutation unreachable1 unreachable2 /\
    sorted unreachable1 ipaddress.IPv4Address = Return listed /\
    sorted unreachable2 ipaddress.IPv4Address = Return listed.
Proof.
  intros Hparse Hpos Horder1 Horder2.
  pose proof (ipaddress_facts.IPv4Network_well_formed _ _ _ Hparse) as Hwf.
  pose proof (yielded_permutation (host_ips_of network) order1 Horder1)
    as Hseen1.
  pose proof (yielded_permutation (host_ips_of network) order2 Horder2)
    as Hseen2.
  set (unanswered := fun ip => negb (answers process timeout ip)).
  assert (Hun1 : Permutation
                   (filter unanswered (yielded (host_ips_of network) order1))
                   (filter unanswered (host_ips_of network)))
    by (apply filter_permutation; exact Hseen1).
  assert (Hun2 : Permutation
                   (filter unanswered (yielded (host_ips_of network) order2))
                   (filter unanswered (host_ips_of network)))
    by (apply filter_permutation; exact Hseen2).
  exists (filter unanswered (yielded (host_ips_of network) order1)),
         (filter unanswered (yielded (host_ips_of network) order2)),
         (List.length (host_ips_of network)),
         (List.length (filter (answers process timeout)
                              (host_ips_of network))),
         (loop_events process timeout (yielded (host_ips_of network) order1)),
         (loop_events process timeout (yielded (host_ips_of network) order2)),
         (filter unanswered (host_ips_of network)).
  split; [| split; [| split; [| split]]].
  - rewrite (scan_subnet_valid process subnet network max_workers timeout
               order1 tr Hparse Hpos).
    cbv zeta.
    rewrite (Permutation_length
               (filter_permutation (answers process timeout) _ _ Hseen1)).
    reflexivity.
  - rewrite (scan_subnet_valid process subnet network max_workers timeout
               order2 tr Hparse Hpos).
    cbv zeta.
    rewrite (Permutation_length
               (filter_permutation (answers process timeout) _ _ Hseen2)).
    reflexivity.
  - etransitivity; [exact Hun1 | symmetry; exact Hun2].
  - apply sorted_selection; assumption.
  - apply sorted_selection; assumption.
Qed.

Lemma scan_subnet_twice_same_classification_witness :
  exists unreachable1 unreachable2 listed,
    fst (scan_subnet (fun _ _ => Return 1) "10.0.0.0/30" 50 1 [0; 1]%nat [])
    = Return unreachable1 /\
    fst (scan_subnet (fun _ _ => Return 1) "10.0.0.0/30" 50 1 [1; 0]%nat [])
    = Return unreachable2 /\
    Permutation unreachable1 unreachable2 /\
    sorted unreachable1 ipaddress.IPv4Address = Return listed /\
    sorted unreachable2 ipaddress.IPv4Address = Return listed.
Proof.
  destruct (scan_subnet_twice_same_classification (fun _ _ => Return 1)
              "10.0.0.0/30" (ipaddress.mkNetwork 167772160 30)
              50 1 [0; 1]%nat [1; 0]%nat [])
    as [u1 [u2 [total [pingable [evs1 [evs2 [listed
         [H1 [H2 [Hperm [Hs1 Hs2]]]]]]]]]]].
  - reflexivity.
  - lia.
  - apply Permutation_refl.
  - apply perm_swap.
  - exists u1, u2, listed.
    rewrite H1, H2. repeat split; assumption.
Defined.

(** ** Range expansion *)

Section RangeExpansion.

Import ipaddress ipaddress_facts.

(** C4.  Range expansion leaves out the network and the broadcast address
    for prefix lengths up to /30 and keeps every address of a /31 and of a
    /32: a /24 expands to exactly 254 usable hosts, the addresses ending
    in [.1] to [.254]; a /31 to exactly its 2 addresses; a /32 to exactly
    its 1 address. *)
Theorem hosts_expansion (subnet : string) (network : ipaddress.network) :
  ipaddress.IPv4Network subnet false = Return network ->
  let net := network_address network in
  let bcast := broadcast_address network in
  (prefixlen network <= 30 ->
     (forall x, In x (hosts network) <-> net < x < bcast) /\
     Z.of_nat (List.length (host_ips_of network))
     = 2 ^ (32 - prefixlen network) - 2) /\
  (prefixlen network = 24 ->
     List.length (host_ips_of network) = 254%nat /\
     host_ips_of network
     = map (fun k => (first_three_octets network ++ str_of_int k)%string)
           (range 1 255)) /\
  (prefixlen network = 31 ->
     bcast = net + 1 /\ hosts network = [net; bcast] /\
     List.length (host_ips_of network) = 2%nat) /\
  (prefixlen network = 32 ->
     bcast = net /\ hosts network = [net] /\
     List.length (host_ips_of network) = 1%nat).
Proof.
  intros Hparse net bcast.
  pose proof (IPv4Network_well_formed _ _ _ Hparse) as Hwf.
  pose proof (broadcast_eq network Hwf) as Hb. fold net bcast in Hb.
  unfold host_ips_of. rewrite length_map.
  split; [| split; [| split]]; intros Hp.
  - rewrite hosts_wide by assumption. fold net. split.
    + intros x. rewrite in_range. lia.
    + rewrite length_range.
      assert (4 <= 2 ^ (32 - prefixlen network)).
      { change 4 with (2 ^ 2). apply Z.pow_le_mono_r; lia. }
      lia.
  - rewrite hosts_wide by (assumption || lia). fold net.
    rewrite Hp. change (2 ^ (32 - 24)) with 256. split.
    + rewrite length_range. lia.
    + replace (net + 256 - 1) with (net + 255) by lia.
      rewrite range_shift, map_map.
      apply map_ext_in. intros k Hk. apply in_range in Hk.
      apply string_from_low_octet; [| lia].
      destruct Hwf as [_ [q [_ Hq]]]. rewrite Hp in Hq.
      change (2 ^ (32 - 24)) with 256 in Hq. exists q. exact Hq.
  - rewrite Hp in Hb. change (2 ^ (32 - 31)) with 2 in Hb.
    rewrite hosts_31 by assumption. fold net.
    replace bcast with (net + 1) by lia. repeat split.
  - rewrite Hp in Hb. change (2 ^ (32 - 32)) with 1 in Hb.
    rewrite hosts_32 by assumption. fold net.
    split; [lia | split; reflexivity].
Qed.

Lemma hosts_expansion_witness :
  List.length (host_ips_of (mkNetwork 3232235776 24)) = 254%nat /\
  host_ips_of (mkNetwork 3232235776 24)
  = map (fun k => (first_three_octets (mkNetwork 3232235776 24)
                   ++ str_of_int k)%string)
        (range 1 255).
Proof.
  apply (hosts_expansion "192.168.1.77/24" (mkNetwork 3232235776 24)).
  - reflexivity.
  - reflexivity.
Defined.

Example hosts_24 :
  first_three_octets (mkNetwork 3232235776 24) = "192.168.1." /\
  hd_error (host_ips_of (mkNetwork 3232235776 24)) = Some "192.168.1.1" /\
  last (host_ips_of (mkNetwork 3232235776 24)) "" = "192.168.1.254".
Proof. vm_compute. repeat split. Qed.

End RangeExpansion.

(** * Further properties: the prompt, the report, the probes *)

(** ** Printing a network and reading it back *)

Section NetworkText.

Import ipaddress ipaddress_facts.

Lemma prefix_table :
  forallb (fun p =>
             match make_netmask (str_of_int p) with
             | Return v => v =? p
             | Raise _ => false
             end
             && negb (contains "/" (str_of_int p)))
          (range 0 33) = true.
Proof. vm_compute. reflexivity. Qed.

Lemma prefix_string (p : Z) :
  0 <= p <= 32 ->
  make_netmask (str_of_int p) = Return p /\
  contains "/" (str_of_int p) = false.
Proof.
  intros Hp. pose proof prefix_table as Htab.
  rewrite forallb_forall in Htab.
  assert (Hin : In p (range 0 33)) by (apply in_range; lia).
  specialize (Htab p Hin).
  apply andb_true_iff in Htab. destruct Htab as [Hparse Hslash].
  apply negb_true_iff in Hslash. split; [| exact Hslash].
  destruct (make_netmask (str_of_int p)) as [v |]; [| discriminate].
  apply Z.eqb_eq in Hparse. congruence.
Qed.

Lemma IPv4Address_no_slash (s : string) (v : Z) :
  IPv4Address s = Return v -> contains "/" s = false.
Proof.
  unfold IPv4Address. destruct (contains "/" s); [discriminate | reflexivity].
Qed.

Lemma well_formed_masked (n : network) :
  well_formed n ->
  Z.land (network_address n) (ip_int_from_prefix (prefixlen n))
  = network_address n.
Proof.
  intros Hwf.
  pose proof (network_address_range n Hwf) as [Hlo Hhi].
  destruct Hwf as [Hp [q [Hq Hnet]]].
  assert (Hpow : 0 < 2 ^ (32 - prefixlen n)) by (apply Z.pow_pos_nonneg; lia).
  rewrite land_netmask by lia.
  rewrite Hnet, Z.div_mul by lia. reflexivity.
Qed.

Lemma str_of_network_round_trip (n : network) (strict : bool) :
  well_formed n -> IPv4Network (str_of_network n) strict = Return n.
Proof.
  intros Hwf.
  pose proof (network_address_range n Hwf) as [Hlo Hhi].
  pose proof (well_formed_masked n Hwf) as Hmask.
  destruct Hwf as [Hp Hq].
  assert (Hpow : 0 < 2 ^ (32 - prefixlen n)) by (apply Z.pow_pos_nonneg; lia).
  assert (Haddr : IPv4Address (string_from_ip_int (network_address n))
                  = Return (network_address n))
    by (apply string_from_ip_int_round_trip; lia).
  destruct (prefix_string (prefixlen n) Hp) as [Hnm Hslash].
  unfold IPv4Network, str_of_network.
  change ("/" ++ str_of_int (prefixlen n))%string
    with (String "/" (str_of_int (prefixlen n))).
  rewrite split_append by (eapply IPv4Address_no_slash; exact Haddr).
  rewrite split_no_sep by exact Hslash.
  cbn [List.length Nat.ltb Nat.leb].
  rewrite Haddr, Hnm, Hmask, Z.eqb_refl. cbn [negb andb].
  destruct n; reflexivity.
Qed.

End NetworkText.

(** ** [get_subnet_input] *)

Section PromptFacts.

Import ipaddress ipaddress_facts.

Lemma num_addresses_pow2 (n : network) :
  well_formed n -> num_addresses n = 2 ^ (32 - prefixlen n).
Proof.
  intros Hwf. unfold num_addresses. rewrite broadcast_eq by exact Hwf. lia.
Qed.

Lemma large_iff_short_prefix (n : network) :
  well_formed n -> (1024 <? num_addresses n) = (prefixlen n <? 22).
Proof.
  intros Hwf. rewrite num_addresses_pow2 by exact Hwf.
  destruct Hwf as [Hp _]. change 1024 with (2 ^ 10).
  destruct (Z.ltb_spec (prefixlen n) 22) as [Hlt | Hge].
  - apply Z.ltb_lt. apply Z.pow_lt_mono_r; lia.
  - apply Z.ltb_ge. apply Z.pow_le_mono_r; lia.
Qed.

Lemma parse_not_empty (s : string) (n : network) (strict : bool) :
  IPv4Network s strict = Return n -> (s =? "")%string = false.
Proof.
  destruct s; [discriminate | reflexivity].
Qed.

Lemma get_subnet_input_cons (l : string) (rest : list string)
    (out : list console) :
  get_subnet_input (l :: rest) out
  = if (strip l =? "")%string
    then get_subnet_input rest ((out ++ banner) ++ [Said PleaseEnterSubnet])
    else
      match IPv4Network (strip l) false with
      | Return network =>
          if 1024 <? num_addresses network then
            match rest with
            | [] =>
                get_subnet_input rest
                  (((out ++ banner)
                    ++ [Asked (ConfirmLarge (num_addresses network))])
                   ++ [Said (InputError EOFError)])
            | r :: rest' =>
                if negb (says_yes r)
                then get_subnet_input rest'
                       ((out ++ banner)
                        ++ [Asked (ConfirmLarge (num_addresses network))])
                else (Return (str_of_network network),
                      (rest',
                       (out ++ banner)
                       ++ [Asked (ConfirmLarge (num_addresses network))]))
            end
          else (Return (str_of_network network), (rest, out ++ banner))
      | Raise AddressValueError =>
          get_subnet_input rest ((out ++ banner) ++ [Said InvalidSubnetFormat])
      | Raise e =>
          get_subnet_input rest ((out ++ banner) ++ [Said (InputError e)])
      end.
Proof. reflexivity. Qed.

(** What is returned, and what is left unread, do not depend on what was
    written before. *)
Lemma get_subnet_input_log_irrelevant (bound : nat) :
  forall stdin out1 out2,
    (List.length stdin <= bound)%nat ->
    input_result (get_subnet_input stdin out1)
    = input_result (get_subnet_input stdin out2).
Proof.
  induction bound as [| bound IH]; intros stdin out1 out2 Hlen.
  - destruct stdin; [reflexivity | cbn in Hlen; lia].
  - destruct stdin as [| l rest]; [reflexivity |].
    cbn [List.length] in Hlen.
    rewrite !get_subnet_input_cons.
    destruct (strip l =? "")%string; [apply IH; lia |].
    destruct (IPv4Network (strip l) false) as [network | e].
    + destruct (1024 <? num_addresses network); [| reflexivity].
      destruct rest as [| r rest']; [apply IH; cbn; lia |].
      destruct (negb (says_yes r)); [| reflexivity].
      apply IH. cbn [List.length] in Hlen. lia.
    + destruct e; apply IH; lia.
Qed.

End PromptFacts.

Section PromptProperties.

Import ipaddress ipaddress_facts.

Lemma get_subnet_input_returns_bounded (bound : nat) :
  forall stdin out subnet rest out',
    (List.length stdin <= bound)%nat ->
    get_subnet_input stdin out = (Return subnet, (rest, out')) ->
    exists skipped l network,
      IPv4Network (strip l) false = Return network /\
      subnet = str_of_network network /\
      IPv4Network subnet true = Return network /\
      (num_addresses network <= 1024 /\ stdin = skipped ++ l :: rest \/
       1024 < num_addresses network /\
       exists r, says_yes r = true /\ stdin = skipped ++ l :: r :: rest).
Proof.
  induction bound as [| bound IH]; intros stdin out subnet rest out' Hlen Hget.
  - destruct stdin; [discriminate Hget | cbn in Hlen; lia].
  - destruct stdin as [| l tl]; [discriminate Hget |].
    cbn [List.length] in Hlen.
    rewrite get_subnet_input_cons in Hget.
    assert (Hskip1 : forall o,
              get_subnet_input tl o = (Return subnet, (rest, out')) ->
              exists skipped l0 network,
                IPv4Network (strip l0) false = Return network /\
                subnet = str_of_network network /\
                IPv4Network subnet true = Return network /\
                (num_addresses network <= 1024 /\
                 l :: tl = skipped ++ l0 :: rest \/
                 1024 < num_addresses network /\
                 exists r, says_yes r = true /\
                           l :: tl = skipped ++ l0 :: r :: rest)).
    { intros o Ho.
      destruct (IH tl o subnet rest out' ltac:(lia) Ho)
        as [skipped [l0 [network [Hp [Hs [Hstrict Hcase]]]]]].
      exists (l :: skipped), l0, network.
      repeat split; try assumption.
      destruct Hcase as [[Hsmall ->] | [Hlarge [r [Hyes ->]]]].
      - left. split; [exact Hsmall | reflexivity].
      - right. split; [exact Hlarge |]. exists r.
        split; [exact Hyes | reflexivity]. }
    destruct (strip l =? "")%string; [eapply Hskip1; exact Hget |].
    destruct (IPv4Network (strip l) false) as [network | e] eqn:Hparse;
      [| destruct e; eapply Hskip1; exact Hget].
    pose proof (IPv4Network_well_formed _ _ _ Hparse) as Hwf.
    destruct (Z.ltb_spec 1024 (num_addresses network)) as [Hlarge | Hsmall].
    + destruct tl as [| r tl']; [eapply Hskip1; exact Hget |].
      destruct (says_yes r) eqn:Hyes; cbn [negb] in Hget.
      * injection Hget as <- <- <-.
        exists [], l, network. repeat split; try assumption.
        -- apply str_of_network_round_trip. exact Hwf.
        -- right. split; [exact Hlarge |]. exists r.
           split; [exact Hyes | reflexivity].
      * cbn [List.length] in Hlen.
        destruct (IH tl' _ subnet rest out' ltac:(lia) Hget)
          as [skipped [l0 [network0 [Hp [Hs [Hstrict Hcase]]]]]].
        exists (l :: r :: skipped), l0, network0.
        repeat split; try assumption.
        destruct Hcase as [[Hsm ->] | [Hlg [r0 [Hyes0 ->]]]].
        -- left. split; [exact Hsm | reflexivity].
        -- right. split; [exact Hlg |]. exists r0.
           split; [exact Hyes0 | reflexivity].
    + injection Hget as <- <- <-.
      exists [], l, network. repeat split; try assumption.
      * apply str_of_network_round_trip. exact Hwf.
      * left. split; [exact Hsmall | reflexivity].
Qed.

End PromptProperties.

(** X1.  Whatever [get_subnet_input] returns is the text [str(network)] of
    a network parsed from one of the lines read, after the lines before it
    were passed over; read back strictly (as the report of [main] does) it
    gives that network again.  A network of more than 1024 addresses is
    returned only if the line read after it answered [y] or [yes]. *)
Theorem get_subnet_input_returns_confirmed_network
    (stdin : list string) (out : list console)
    (subnet : string) (rest : list string) (out' : list console) :
  get_subnet_input stdin out = (Return subnet, (rest, out')) ->
  exists skipped l network,
    ipaddress.IPv4Network (strip l) false = Return network /\
    subnet = str_of_network network /\
    ipaddress.IPv4Network subnet true = Return network /\
    (ipaddress.num_addresses network <= 1024 /\
     stdin = skipped ++ l :: rest \/
     1024 < ipaddress.num_addresses network /\
     exists r, says_yes r = true /\ stdin = skipped ++ l :: r :: rest).
Proof.
  apply (get_subnet_input_returns_bounded (List.length stdin)). lia.
Qed.

Lemma get_subnet_input_returns_confirmed_network_witness :
  exists skipped l network,
    ipaddress.IPv4Network (strip l) false = Return network /\
    "10.0.0.0/16" = str_of_network network /\
    ipaddress.IPv4Network "10.0.0.0/16" true = Return network /\
    (ipaddress.num_addresses network <= 1024 /\
     ["abc"; "10.0.0.0/8"; "no"; " 10.0.9.9/16 "; " Yes"; "x"]
     = skipped ++ l :: ["x"] \/
     1024 < ipaddress.num_addresses network /\
     exists r, says_yes r = true /\
       ["abc"; "10.0.0.0/8"; "no"; " 10.0.9.9/16 "; " Yes"; "x"]
       = skipped ++ l :: r :: ["x"]).
Proof.
  eapply (get_subnet_input_returns_confirmed_network
            ["abc"; "10.0.0.0/8"; "no"; " 10.0.9.9/16 "; " Yes"; "x"] []).
  vm_compute. reflexivity.
Defined.

(** X3.  Lines that are empty after stripping or that do not parse as a
    network are passed over one by one: with such lines in front, the
    prompt returns (or fails) as it does without them, and leaves the same
    lines unread. *)
Theorem get_subnet_input_skips_rejected_lines
    (skipped stdin : list string) (out out' : list console) :
  Forall rejected skipped ->
  input_result (get_subnet_input (skipped ++ stdin) out)
  = input_result (get_subnet_input stdin out').
Proof.
  intros Hrej. revert out.
  induction Hrej as [| l skipped [e He] _ IH]; intros out.
  - cbn [app].
    apply (get_subnet_input_log_irrelevant (List.length stdin)). lia.
  - cbn [app]. rewrite get_subnet_input_cons, He.
    destruct (strip l =? "")%string; [apply IH |].
    destruct e; apply IH.
Qed.

Lemma get_subnet_input_skips_rejected_lines_witness :
  input_result (get_subnet_input (["   "; "not-an-ip/24"; "10.0.0.0/33"]
                                   ++ ["10.0.0.9/30"; "x"]) [])
  = input_result (get_subnet_input ["10.0.0.9/30"; "x"] []).
Proof.
  apply (get_subnet_input_skips_rejected_lines
           ["   "; "not-an-ip/24"; "10.0.0.0/33"] ["10.0.0.9/30"; "x"] [] []).
  repeat constructor.
  - exists AddressValueError. reflexivity.
  - exists AddressValueError. reflexivity.
  - exists NetmaskValueError. reflexivity.
Defined.

(** X4.  The confirmation question is a matter of the prefix length: a
    line that parses to a network with a prefix of 22 bits or more is
    returned at once, without a question; for a shorter prefix the
    question states 2^(32 - prefixlen) addresses, and the answer [y] or
    [yes] returns the network. *)
Theorem get_subnet_input_asks_below_22
    (l : string) (network : ipaddress.network)
    (rest : list string) (out : list console) :
  ipaddress.IPv4Network (strip l) false = Return network ->
  (22 <= ipaddress.prefixlen network ->
   get_subnet_input (l :: rest) out
   = (Return (str_of_network network), (rest, out ++ banner))) /\
  (ipaddress.prefixlen network < 22 ->
   forall r rest',
     rest = r :: rest' ->
     get_subnet_input (l :: rest) out
     = if says_yes r
       then (Return (str_of_network network),
             (rest',
              (out ++ banner)
              ++ [Asked (ConfirmLarge
                           (2 ^ (32 - ipaddress.prefixlen network)))]))
       else get_subnet_input rest'
              ((out ++ banner)
               ++ [Asked (ConfirmLarge
                            (2 ^ (32 - ipaddress.prefixlen network)))])).
Proof.
  intros Hparse.
  pose proof (ipaddress_facts.IPv4Network_well_formed _ _ _ Hparse) as Hwf.
  rewrite get_subnet_input_cons, (parse_not_empty _ _ _ Hparse), Hparse.
  rewrite (large_iff_short_prefix network Hwf).
  rewrite (num_addresses_pow2 network Hwf).
  split.
  - intros Hge. destruct (Z.ltb_spec (ipaddress.prefixlen network) 22); [lia |].
    reflexivity.
  - intros Hlt r rest' ->.
    destruct (Z.ltb_spec (ipaddress.prefixlen network) 22); [| lia].
    destruct (says_yes r); reflexivity.
Qed.

Lemma get_subnet_input_asks_below_22_witness :
  get_subnet_input ["192.168.1.77/22"; "x"] []
  = (Return (str_of_network (ipaddress.mkNetwork 3232235520 22)),
     (["x"], [] ++ banner)).
Proof.
  apply (get_subnet_input_asks_below_22 "192.168.1.77/22"
           (ipaddress.mkNetwork 3232235520 22) ["x"] []).
  - reflexivity.
  - cbn. lia.
Defined.

(** ** The whole of [main] *)

Lemma yielded_incl (host_ips : list string) (order : list nat) :
  incl (yielded host_ips order) host_ips.
Proof.
  intros ip Hip. unfold yielded in Hip. apply in_flat_map in Hip.
  destruct Hip as [f [_ Hf]].
  destruct (nth_error host_ips f) as [ip' |] eqn:Hnth; [| destruct Hf].
  destruct Hf as [<- | []]. eapply nth_error_In. exact Hnth.
Qed.

Section MainFacts.

Variable process : list string -> Z -> outcome Z.

Lemma main_report_eq (subnet : string) (n : ipaddress.network)
    (ips listed : list string) (tr : trace) :
  ipaddress.IPv4Network subnet true = Return n ->
  sorted ips ipaddress.IPv4Address = Return listed ->
  main_report subnet ips tr
  = (Return tt,
     tr ++ report_events (List.length (host_ips_of n)) ips listed).
Proof.
  intros Hparse Hsorted. unfold main_report, count_hosts, report_events.
  unfold host_ips_of. rewrite length_map.
  rewrite !bind_print.
  destruct ips as [| ip ips].
  - repeat (rewrite bind_assoc || rewrite bind_print
            || rewrite Hparse || rewrite bind_lift_return
            || rewrite bind_ret).
    unfold print. rewrite <- !app_assoc. reflexivity.
  - rewrite Hsorted.
    repeat (rewrite bind_assoc || rewrite bind_print
            || rewrite Hparse || rewrite bind_lift_return
            || rewrite bind_ret || rewrite bind_for_each_print).
    unfold print. rewrite <- !app_assoc. reflexivity.
Qed.

(** The unreachable list of a scan can always be sorted by address. *)
Lemma sorted_unreachable_total (n : ipaddress.network) (f : string -> bool)
    (order : list nat) :
  well_formed n ->
  exists listed,
    sorted (filter f (yielded (host_ips_of n) order)) ipaddress.IPv4Address
    = Return listed.
Proof.
  intros Hwf.
  assert (Hkeys : Forall
            (fun x => exists k, ipaddress.IPv4Address x = Return k)
            (filter f (yielded (host_ips_of n) order))).
  { apply Forall_forall. intros ip Hip. apply filter_In in Hip.
    destruct Hip as [Hip _]. apply yielded_incl in Hip.
    destruct (host_ips_address n Hwf ip Hip) as [h [_ [_ Hh]]].
    exists h. exact Hh. }
  destruct (keyed_total ipaddress.IPv4Address _ Hkeys) as [ks Hks].
  unfold sorted. rewrite Hks. eexists. reflexivity.
Qed.

Lemma main_from_eq (subnet : string) (n : ipaddress.network)
    (order : list nat) (listed : list string) :
  ipaddress.IPv4Network subnet true = Return n ->
  let seen := yielded (host_ips_of n) order in
  let unreachable := filter (fun ip => negb (answers process 1 ip)) seen in
  sorted unreachable ipaddress.IPv4Address = Return listed ->
  main_from process subnet order []
  = (Return tt,
     [Printed (StartingScan subnet); Printed LookingForNonPingable;
      Printed (Rule 60)]
     ++ scan_header subnet (List.length (host_ips_of n)) 50 1
     ++ loop_events process 1 seen
     ++ scan_footer (List.length (filter (answers process 1) seen))
                    (List.length unreachable)
     ++ [Printed ScanDuration]
     ++ report_events (List.length (host_ips_of n)) unreachable listed).
Proof.
  intros Hstrict seen unreachable Hsorted.
  pose proof (strict_parse_is_parse subnet n Hstrict) as Hparse.
  unfold main_from. rewrite !bind_print.
  unfold bind at 1.
  rewrite (scan_subnet_valid process subnet n 50 1 order _ Hparse)
    by lia.
  cbv zeta. fold seen. fold unreachable.
  rewrite bind_print.
  rewrite (main_report_eq subnet n unreachable listed _ Hstrict Hsorted).
  cbn [app]. rewrite <- !app_assoc. reflexivity.
Qed.

End MainFacts.

(** X5.  Once [get_subnet_input] has returned a range, [main] runs the
    scan and the report to the end and returns, whatever the probes do and
    in whatever order they complete: the range the prompt hands over
    always parses again, strictly, where the summary counts its hosts, and
    every address of the unreachable list has a sort key. *)
Theorem main_completes_once_range_accepted
    (process : list string -> Z -> outcome Z)
    (stdin : list string) (order : list nat)
    (subnet : string) (rest : list string) (out : list console) :
  get_subnet_input stdin [] = (Return subnet, (rest, out)) ->
  exists tr,
    main process stdin order = (Return tt, (rest, out, tr)) /\
    main_from process subnet order [] = (Return tt, tr).
Proof.
  intros Hget. unfold main. rewrite Hget.
  destruct (get_subnet_input_returns_bounded (List.length stdin) stdin []
              subnet rest out ltac:(lia) Hget)
    as [_ [_ [network [_ [_ [Hstrict _]]]]]].
  pose proof (ipaddress_facts.IPv4Network_well_formed _ _ _ Hstrict) as Hwf.
  destruct (sorted_unreachable_total network
              (fun ip => negb (answers process 1 ip)) order Hwf)
    as [listed Hsorted].
  rewrite (main_from_eq process subnet network order listed Hstrict
             Hsorted).
  eexists. split; reflexivity.
Qed.

Lemma main_completes_once_range_accepted_witness :
  exists tr,
    main (fun _ _ => Return 1) ["abc"; " 10.0.0.9/30 "; "x"] [1; 0]%nat
    = (Return tt, (["x"], snd (snd (get_subnet_input
                                      ["abc"; " 10.0.0.9/30 "; "x"] [])),
                   tr)) /\
    main_from (fun _ _ => Return 1) "10.0.0.8/30" [1; 0]%nat []
    = (Return tt, tr).
Proof.
  apply (main_completes_once_range_accepted (fun _ _ => Return 1)
           ["abc"; " 10.0.0.9/30 "; "x"] [1; 0]%nat "10.0.0.8/30" ["x"]).
  vm_compute. reflexivity.
Defined.

Section ReportCounts.

Variable process : list string -> Z -> outcome Z.

Lemma loop_events_kind (timeout : Z) (ips : list string) (ev : event) :
  In ev (loop_events process timeout ips) ->
  match ev with
  | SubprocessRun _ _ | Printed (ErrorPinging _ _)
  | Printed (HostReachable _) | Printed (HostNotReachable _) => True
  | _ => False
  end.
Proof.
  unfold loop_events. intros Hin. apply in_flat_map in Hin.
  destruct Hin as [ip [_ Hin]]. apply in_app_iff in Hin.
  destruct Hin as [Hin | [<- | []]].
  - unfold ping_events in Hin. destruct Hin as [<- | Hin]; [exact I |].
    destruct (process (ping_argv ip timeout) (timeout + 1)) as [rc | e];
      [destruct Hin |].
    destruct e; destruct Hin as [<- | []] || destruct Hin; exact I.
  - destruct (answers process timeout ip); exact I.
Qed.

(** X6.  The report of [main] agrees with the scan: it prints "all
    pingable" exactly when every host of the range answered; otherwise
    its summary gives the number of hosts that did not answer and, as
    pingable, the number the scan itself counted; in both cases the total
    is the number of usable hosts of the range. *)
Theorem main_report_agrees_with_scan
    (subnet : string) (network : ipaddress.network) (order : list nat) :
  ipaddress.IPv4Network subnet true = Return network ->
  Permutation order (seq 0 (List.length (host_ips_of network))) ->
  let total := List.length (host_ips_of network) in
  let pingable :=
    List.length (filter (answers process 1) (host_ips_of network)) in
  let failed :=
    List.length (filter (fun ip => negb (answers process 1 ip))
                        (host_ips_of network)) in
  exists tr',
    main_from process subnet order [] = (Return tt, tr') /\
    In (Printed (PingableHosts pingable)) tr' /\
    In (Printed (TotalScanned total)) tr' /\
    (In (Printed AllPingable) tr' <->
     forall ip, In ip (host_ips_of network) -> answers process 1 ip = true) /\
    (failed <> 0%nat ->
     In (Printed (SummaryNonPingable failed)) tr' /\
     In (Printed (SummaryPingable (Z.of_nat pingable))) tr').
Proof.
  intros Hstrict Horder total pingable failed.
  pose proof (strict_parse_is_parse subnet network Hstrict) as Hparse.
  pose proof (ipaddress_facts.IPv4Network_well_formed _ _ _ Hparse) as Hwf.
  pose proof (yielded_permutation (host_ips_of network) order Horder)
    as Hseen.
  set (unanswered := fun ip => negb (answers process 1 ip)) in *.
  set (seen := yielded (host_ips_of network) order) in *.
  assert (Hun : Permutation (filter unanswered seen)
                            (filter unanswered (host_ips_of network)))
    by (apply filter_permutation; exact Hseen).
  pose proof (sorted_selection network Hwf unanswered _ Hun) as Hsorted.
  assert (Hk : List.length (filter unanswered seen) = failed)
    by (apply Permutation_length; exact Hun).
  assert (Hc : List.length (filter (answers process 1) seen) = pingable)
    by (apply Permutation_length, filter_permutation; exact Hseen).
  assert (Hsum : (pingable + failed = total)%nat)
    by (apply filter_split_length).
  assert (Hall : failed = 0%nat <->
            forall ip, In ip (host_ips_of network) ->
                       answers process 1 ip = true).
  { unfold failed. split.
    - intros Hz ip Hip.
      destruct (answers process 1 ip) eqn:Hans; [reflexivity |].
      assert (Hin : In ip (filter unanswered (host_ips_of network))).
      { apply filter_In. split; [exact Hip |].
        unfold unanswered. rewrite Hans. reflexivity. }
      apply length_zero_iff_nil in Hz. rewrite Hz in Hin. destruct Hin.
    - intros Hyes. apply length_zero_iff_nil.
      destruct (filter unanswered (host_ips_of network)) as [| ip l] eqn:Hf;
        [reflexivity |].
      assert (Hin : In ip (filter unanswered (host_ips_of network)))
        by (rewrite Hf; left; reflexivity).
      apply filter_In in Hin. destruct Hin as [Hip Hno].
      unfold unanswered in Hno. rewrite (Hyes ip Hip) in Hno.
      discriminate Hno. }
  eexists. split.
  { apply (main_from_eq process subnet network order _ Hstrict Hsorted). }
  fold seen. fold unanswered. rewrite Hk, Hc. fold total.
  split; [| split; [| split]].
  - rewrite !in_app_iff. do 3 right. left. cbn. tauto.
  - rewrite !in_app_iff. do 5 right. unfold report_events.
    destruct (filter unanswered seen); rewrite !in_app_iff; cbn; tauto.
  - rewrite <- Hall. rewrite <- Hk.
    rewrite !in_app_iff. unfold report_events. split.
    + intros [H | [H | [H | [H | [H | H]]]]].
      * cbn in H. repeat (destruct H as [H | H]; [discriminate H |]).
        destruct H.
      * cbn in H. repeat (destruct H as [H | H]; [discriminate H |]).
        destruct H.
      * apply loop_events_kind in H. destruct H.
      * cbn in H. repeat (destruct H as [H | H]; [discriminate H |]).
        destruct H.
      * cbn in H. repeat (destruct H as [H | H]; [discriminate H |]).
        destruct H.
      * destruct (filter unanswered seen) as [| ip l]; [reflexivity |].
        exfalso. rewrite !in_app_iff in H.
        destruct H as [H | [[H | [H | H]] | H]].
        -- cbn in H. repeat (destruct H as [H | H]; [discriminate H |]).
           destruct H.
        -- cbn in H. repeat (destruct H as [H | H]; [discriminate H |]).
           destruct H.
        -- apply in_map_iff in H. destruct H as [x [Hx _]]. discriminate Hx.
        -- cbn in H. repeat (destruct H as [H | H]; [discriminate H |]).
           destruct H.
        -- cbn in H. repeat (destruct H as [H | H]; [discriminate H |]).
           destruct H.
    + intros Hz. apply length_zero_iff_nil in Hz. rewrite Hz.
      do 5 right. cbn. tauto.
  - intros Hnz. rewrite <- Hk in Hnz.
    rewrite !in_app_iff. unfold report_events.
    destruct (filter unanswered seen) as [| ip l] eqn:Hf;
      [cbn in Hnz; congruence |].
    rewrite Hk.
    replace (Z.of_nat total - Z.of_nat failed) with (Z.of_nat pingable)
      by lia.
    split; do 5 right; rewrite !in_app_iff; cbn; tauto.
Qed.

End ReportCounts.

Lemma main_report_agrees_with_scan_witness :
  exists tr',
    main_from (fun argv _ =>
                 if (nth 5 argv "" =? "10.0.0.1")%string
                 then Return 0 else Return 1)
              "10.0.0.0/30" [1; 0]%nat [] = (Return tt, tr') /\
    In (Printed (PingableHosts 1)) tr' /\
    In (Printed (SummaryPingable 1)) tr'.
Proof.
  destruct (main_report_agrees_with_scan
              (fun argv _ =>
                 if (nth 5 argv "" =? "10.0.0.1")%string
                 then Return 0 else Return 1)
              "10.0.0.0/30" (ipaddress.mkNetwork 167772160 30) [1; 0]%nat)
    as [tr' [Hmain [Hcount [_ [_ Hsummary]]]]].
  - reflexivity.
  - apply perm_swap.
  - exists tr'. split; [exact Hmain |]. split; [exact Hcount |].
    apply Hsummary. vm_compute. discriminate.
Defined.

(** ** The probes of a scan *)

Lemma probes_app (t1 t2 : trace) : probes (t1 ++ t2) = probes t1 ++ probes t2.
Proof. unfold probes. apply flat_map_app. Qed.

Lemma NoDup_map_injective {A B : Type} (f : A -> B) (l : list A) :
  (forall x y, f x = f y -> x = y) -> NoDup l -> NoDup (map f l).
Proof.
  intros Hinj. induction 1 as [| x l Hx _ IH]; cbn [map]; constructor.
  - intros Hin. apply in_map_iff in Hin. destruct Hin as [y [Hy Hin]].
    apply Hinj in Hy. subst y. contradiction.
  - exact IH.
Qed.

Section ProbeFacts.

Variable process : list string -> Z -> outcome Z.

Lemma probes_loop_events (timeout : Z) (ips : list string) :
  probes (loop_events process timeout ips)
  = map (fun ip => ping_argv ip timeout) ips.
Proof.
  induction ips as [| ip ips IH]; [reflexivity |].
  cbn [loop_events flat_map map].
  fold (loop_events process timeout ips).
  rewrite !probes_app, IH. unfold ping_events.
  destruct (process (ping_argv ip timeout) (timeout + 1)) as [rc | e];
    [| destruct e];
    destruct (answers process timeout ip); reflexivity.
Qed.

Lemma scan_subnet_no_workers_eq (subnet : string)
    (network : ipaddress.network) (max_workers timeout : Z)
    (order : list nat) (tr : trace) :
  ipaddress.IPv4Network subnet false = Return network ->
  max_workers <= 0 ->
  scan_subnet process subnet max_workers timeout order tr
  = (Return [],
     tr ++ scan_header subnet (List.length (host_ips_of network))
                       max_workers timeout
        ++ [Printed (ErrorScanning ValueError)]).
Proof.
  intros Hparse Hle.
  unfold scan_subnet, try_except, scan_body.
  unfold bind at 1. unfold lift. rewrite Hparse.
  rewrite !bind_print. unfold bind at 1.
  destruct (Z.leb_spec max_workers 0) as [_ | Hgt]; [| lia].
  unfold raise, print, ret, bind, scan_header.
  rewrite <- !app_assoc. reflexivity.
Qed.

(** X7.  With a worker count of zero or less nothing is probed:
    [ThreadPoolExecutor] refuses the count, the error is printed after the
    opening lines, and [scan_subnet] returns the empty list. *)
Theorem scan_subnet_without_workers_probes_nothing
    (subnet : string) (network : ipaddress.network)
    (max_workers timeout : Z) (order : list nat) (tr : trace) :
  ipaddress.IPv4Network subnet false = Return network ->
  max_workers <= 0 ->
  exists tr',
    scan_subnet process subnet max_workers timeout order tr
    = (Return [], tr') /\
    probes tr' = probes tr /\
    last tr' (Printed ScanCompleted) = Printed (ErrorScanning ValueError).
Proof.
  intros Hparse Hle. eexists. split.
  - apply (scan_subnet_no_workers_eq subnet network max_workers timeout
             order tr Hparse Hle).
  - split.
    + rewrite !probes_app. cbn. rewrite app_nil_r. reflexivity.
    + rewrite !app_assoc. apply last_last.
Qed.


(** X8.  A scan runs [ping] once for every usable host of the range and
    for nothing else: the [ping] command lines of the scan are those of
    the hosts, [ping -c 1 -W timeout ip], each exactly once. *)
Theorem scan_subnet_probes_each_host_once
    (subnet : string) (network : ipaddress.network)
    (max_workers timeout : Z) (order : list nat) :
  ipaddress.IPv4Network subnet false = Return network ->
  0 < max_workers ->
  Permutation order (seq 0 (List.length (host_ips_of network))) ->
  let issued :=
    probes (snd (scan_subnet process subnet max_workers timeout order [])) in
  Permutation issued
    (map (fun ip => ping_argv ip timeout) (host_ips_of network))
  /\ NoDup issued.
Proof.
  intros Hparse Hpos Horder issued.
  pose proof (ipaddress_facts.IPv4Network_well_formed _ _ _ Hparse) as Hwf.
  pose proof (yielded_permutation (host_ips_of network) order Horder)
    as Hseen.
  assert (Hissued : issued
            = map (fun ip => ping_argv ip timeout)
                  (yielded (host_ips_of network) order)).
  { unfold issued.
    rewrite (scan_subnet_valid process subnet network max_workers timeout
               order [] Hparse Hpos).
    cbn [snd app]. rewrite !probes_app, probes_loop_events.
    cbn. apply app_nil_r. }
  rewrite Hissued. split.
  - apply Permutation_map. exact Hseen.
  - apply NoDup_map_injective.
    + intros x y Hxy. unfold ping_argv in Hxy. congruence.
    + eapply Permutation_NoDup; [symmetry; exact Hseen |].
      apply host_ips_NoDup. exact Hwf.
Qed.

End ProbeFacts.

Lemma scan_subnet_without_workers_probes_nothing_witness :
  exists tr',
    scan_subnet (fun _ _ => Return 1) "10.0.0.0/30" 0 1 [0; 1]%nat []
    = (Return [], tr') /\
    probes tr' = probes [] /\
    last tr' (Printed ScanCompleted) = Printed (ErrorScanning ValueError).
Proof.
  apply (scan_subnet_without_workers_probes_nothing
           (fun _ _ => Return 1) "10.0.0.0/30"
           (ipaddress.mkNetwork 167772160 30) 0 1 [0; 1]%nat []).
  - reflexivity.
  - lia.
Defined.

Lemma scan_subnet_probes_each_host_once_witness :
  Permutation
    (probes (snd (scan_subnet (fun _ _ => Return 1) "10.0.0.0/30" 50 1
                              [1; 0]%nat [])))
    [["ping"; "-c"; "1"; "-W"; "1"; "10.0.0.1"];
     ["ping"; "-c"; "1"; "-W"; "1"; "10.0.0.2"]] /\
  NoDup
    (probes (snd (scan_subnet (fun _ _ => Return 1) "10.0.0.0/30" 50 1
                              [1; 0]%nat []))).
Proof.
  apply (scan_subnet_probes_each_host_once (fun _ _ => Return 1)
           "10.0.0.0/30" (ipaddress.mkNetwork 167772160 30) 50 1
           [1; 0]%nat).
  - reflexivity.
  - lia.
  - apply perm_swap.
Defined.

(** X9.  Whatever the worker count and the completion order, every [ping]
    of a scan goes to a usable host of the range; for a prefix of 30 bits
    or less the network address and the broadcast address are never
    pinged. *)
Theorem scan_subnet_probes_only_hosts
    (process : list string -> Z -> outcome Z)
    (subnet : string) (network : ipaddress.network)
    (max_workers timeout : Z) (order : list nat) (argv : list string) :
  ipaddress.IPv4Network subnet false = Return network ->
  In argv
     (probes (snd (scan_subnet process subnet max_workers timeout order []))) ->
  (exists ip, In ip (host_ips_of network) /\ argv = ping_argv ip timeout) /\
  (ipaddress.prefixlen network <= 30 ->
   argv <> ping_argv (ipaddress.string_from_ip_int
                        (ipaddress.network_address network)) timeout /\
   argv <> ping_argv (ipaddress.string_from_ip_int
                        (ipaddress.broadcast_address network)) timeout).
Proof.
  intros Hparse Hin.
  pose proof (ipaddress_facts.IPv4Network_well_formed _ _ _ Hparse) as Hwf.
  assert (Hhost : exists ip,
            In ip (host_ips_of network) /\ argv = ping_argv ip timeout).
  { destruct (Z.le_gt_cases max_workers 0) as [Hle | Hgt].
    - rewrite (scan_subnet_no_workers_eq process subnet network max_workers
                 timeout order [] Hparse Hle) in Hin.
      cbn [snd app] in Hin. rewrite probes_app in Hin. cbn in Hin.
      destruct Hin.
    - rewrite (scan_subnet_valid process subnet network max_workers timeout
                 order [] Hparse Hgt) in Hin.
      cbn [snd app] in Hin.
      rewrite !probes_app, probes_loop_events in Hin.
      cbn in Hin. rewrite app_nil_r in Hin.
      apply in_map_iff in Hin. destruct Hin as [ip [<- Hip]].
      exists ip. split; [| reflexivity].
      apply (yielded_incl _ order). exact Hip. }
  split; [exact Hhost |].
  intros Hp. destruct Hhost as [ip [Hip ->]].
  destruct (host_ips_address network Hwf ip Hip) as [h [Hh [-> _]]].
  pose proof (ipaddress_facts.hosts_in_block network h Hwf Hh)
    as [_ Hrange].
  rewrite ipaddress_facts.hosts_wide in Hh by assumption.
  apply ipaddress_facts.in_range in Hh.
  pose proof (ipaddress_facts.network_address_range network Hwf)
    as [Hlo Hhi].
  pose proof (ipaddress_facts.broadcast_eq network Hwf) as Hb.
  split; intros Heq; unfold ping_argv in Heq;
    injection Heq as Heq;
    apply ipaddress_facts.string_from_ip_int_injective in Heq; lia.
Qed.

Lemma scan_subnet_probes_only_hosts_witness :
  ["ping"; "-c"; "1"; "-W"; "1"; "10.0.0.2"]
  <> ping_argv (ipaddress.string_from_ip_int 167772160) 1 /\
  ["ping"; "-c"; "1"; "-W"; "1"; "10.0.0.2"]
  <> ping_argv (ipaddress.string_from_ip_int 167772163) 1.
Proof.
  apply (scan_subnet_probes_only_hosts (fun _ _ => Return 1)
           "10.0.0.0/30" (ipaddress.mkNetwork 167772160 30) 50 1
           [1; 0]%nat ["ping"; "-c"; "1"; "-W"; "1"; "10.0.0.2"]).
  - reflexivity.
  - vm_compute. left. reflexivity.
  - vm_compute. discriminate.
Defined.
